(** * MassiveQC: the feature table builder (build_features.py)

    A shallow embedding of [src/MassiveQC/build_features.py].  The program is
    a chain of pandas calls, so the embedding has three layers:

    - [Module float64]: the arithmetic of the cells.  A float64 number is
      kept as the rational it stands for, and every operation rounds its
      exact result to the nearest float64, a tie going to the even one;
    - [Module pd]: the pandas operations the program calls (a list of labels
      with a missing label is a [KeyError], [sum] skips missing values and
      has [min_count = 0], the sums of [groupby] are compensated).  Where
      the versions of pandas differ, the embedding follows pandas 2.2: a
      join keeps the order of the left rows also when a row label is
      repeated, where the versions before 2.2 sort the rows of such a join;
    - the program itself: [FEATURE_AGG], [FEATURE_RENAME],
      [aggregate_gene_body_coverage], [workflow_data], [build_features].

    The order in which numpy and pandas add the numbers of a row or of a
    group is theirs, and it shows in the last bit of a sum that is not
    exact.  The statements on the value of a sum or of a mean are therefore
    made for whole numbers (counts) of a magnitude that float64 adds without
    rounding, in whatever order; the statements on the order of the rows of
    a join are made for row labels without repetition. *)

From Stdlib Require Import List String Ascii Bool Arith Lia.
From Stdlib Require Import QArith DecimalString.
From Stdlib Require Import Sorted Permutation.
Import ListNotations.

Local Close Scope Q_scope.
Local Open Scope nat_scope.
Local Open Scope string_scope.
Local Open Scope list_scope.

(** ** Exceptions and results *)

Inductive error : Type :=
| KeyError (labels : list string)      (* the labels that were not found *)
| ValueError (msg : string)
| InvalidIndexError
| TypeError
| FileNotFoundError (path : string).

Inductive result (A : Type) : Type :=
| OK (a : A)
| Err (e : error).

Arguments OK {A} a.
Arguments Err {A} e.

Definition bind {A B : Type} (r : result A) (k : A -> result B) : result B :=
  match r with
  | OK a => k a
  | Err e => Err e
  end.

Notation "x <- r ;; k" := (bind r (fun x => k))
  (at level 61, r at next level, right associativity).

Fixpoint mapM {A B : Type} (f : A -> result B) (l : list A) : result (list B) :=
  match l with
  | [] => OK []
  | a :: l' => b <- f a ;; bs <- mapM f l' ;; OK (b :: bs)
  end.

(** ** Tables *)

(** A cell of a table: a float64 number, the missing value, or a string
    (object dtype: identifiers such as srx and srr).  A column of metrics is
    a float64 column; columns of whole numbers kept as int64, whose sums
    wrap around at 2^63, are not told apart from it. *)
Inductive cell : Type :=
| Num (q : Q)
| NaN
| Str (s : string).

(** A DataFrame, column-major: the row labels and the named columns in
    order.  pandas allows repeated row labels and repeated column names, and
    so does this record.  A frame is well formed when every column has one
    cell per row label. *)
Record DataFrame : Type := mkDF {
  index : list string;
  columns : list (string * list cell)
}.

Definition names (df : DataFrame) : list string := map fst (columns df).

Definition nrows (df : DataFrame) : nat := List.length (index df).

Definition wf (df : DataFrame) : Prop :=
  forall c, In c (columns df) -> List.length (snd c) = nrows df.

Definition mem (s : string) (l : list string) : bool :=
  existsb (String.eqb s) l.

(** The cells of row [i], over the columns in order. *)
Definition row (df : DataFrame) (i : nat) : list cell :=
  map (fun c => nth i (snd c) NaN) (columns df).

(** The first column called [name], if any. *)
Definition lookup_col (df : DataFrame) (name : string) : option (list cell) :=
  match find (fun c => String.eqb (fst c) name) (columns df) with
  | Some c => Some (snd c)
  | None => None
  end.

(** Python's [l[a:b]] for [0 <= a <= b]. *)
Definition slice {A : Type} (a b : nat) (l : list A) : list A :=
  firstn (b - a) (skipn a l).

(** ** float64 *)

(** A finite float64 is a rational number; the embedding keeps it as that
    rational.  An operation is the exact operation on rationals followed by
    the rounding of IEEE 754 binary64: 53 significant bits, the last bit not
    below 2^-1074, to the nearest such number, an exact half going to the
    even significand.  The infinities are left out: [round] has no largest
    exponent, so a result beyond the float64 range stays finite here. *)
Module float64.

(** [floor (log2 (n / d))] for positive [n] and [d]. *)
Definition ilog2 (n d : Z) : Z :=
  let e := (Z.log2 n - Z.log2 d)%Z in
  if (if (0 <=? e)%Z then (d * 2 ^ e <=? n)%Z else (d <=? n * 2 ^ (- e))%Z)
  then e else (e - 1)%Z.

(** The integer nearest to [a / b] for positive [b]; an exact half goes to
    the even integer. *)
Definition rdiv (a b : Z) : Z :=
  let q := (a / b)%Z in
  match (2 * (a mod b) ?= b)%Z with
  | Lt => q
  | Gt => (q + 1)%Z
  | Eq => if Z.even q then q else (q + 1)%Z
  end.

(** The float64 nearest to [x], in lowest terms. *)
Definition round (x : Q) : Q :=
  let n := Qnum (Qred x) in
  let d := Zpos (Qden (Qred x)) in
  if (n =? 0)%Z then 0%Q
  else
    let e := Z.max (ilog2 (Z.abs n) d - 52) (-1074) in
    if (0 <=? e)%Z
    then inject_Z (rdiv n (d * 2 ^ e) * 2 ^ e)
    else Qred (Qmake (rdiv (n * 2 ^ (- e)) d) (Z.to_pos (2 ^ (- e)))).

Definition add (a b : Q) : Q := round (a + b)%Q.
Definition sub (a b : Q) : Q := round (a - b)%Q.
Definition div (a b : Q) : Q := round (a / b)%Q.

End float64.

(** ** The pandas operations the program uses *)

Module pd.

(** [np.nansum] of one row: the missing values are filled with 0, which
    changes no sum, and the numbers are added in float64, here one after
    the other in the order of the columns; the sum of no values is 0
    ([min_count = 0]).  A string under the numeric reduction is a
    [TypeError]. *)
Fixpoint nansum_from (acc : Q) (xs : list cell) : result Q :=
  match xs with
  | [] => OK acc
  | Num q :: r => nansum_from (float64.add acc q) r
  | NaN :: r => nansum_from acc r
  | Str _ :: r => Err TypeError
  end.

Definition nansum (xs : list cell) : result Q := nansum_from 0%Q xs.

(** [df[labels]] with a list of labels: every label must be a column name;
    each label selects all the columns of that name. *)
Definition getitem (df : DataFrame) (labels : list string) : result DataFrame :=
  match filter (fun l => negb (mem l (names df))) labels with
  | [] =>
      OK (mkDF (index df)
            (flat_map (fun l => filter (fun c => String.eqb (fst c) l) (columns df))
               labels))
  | missing => Err (KeyError missing)
  end.

(** [df.sum(axis=1)]: one sum per row, as a series on the frame's index. *)
Definition sum_axis1 (df : DataFrame) : result (list cell) :=
  mapM (fun i => s <- nansum (row df i) ;; OK (Num s)) (seq 0 (nrows df)).

(** [df[name] = v]: an existing name is overwritten in place (every column
    of that name), a new name is appended as the last column. *)
Definition setitem (df : DataFrame) (name : string) (v : list cell) : DataFrame :=
  if mem name (names df)
  then mkDF (index df)
         (map (fun c => if String.eqb (fst c) name then (name, v) else c) (columns df))
  else mkDF (index df) (columns df ++ [(name, v)]).

(** [df.assign(name=f)]: [f] is called on the frame, the result is stored
    under [name] in a copy. *)
Definition assign (df : DataFrame) (name : string)
    (f : DataFrame -> result (list cell)) : result DataFrame :=
  v <- f df ;; OK (setitem df name v).

(** [df.drop(labels, axis=1)], with the default [errors='raise']. *)
Definition drop (df : DataFrame) (labels : list string) : result DataFrame :=
  match filter (fun l => negb (mem l (names df))) labels with
  | [] => OK (mkDF (index df)
                (filter (fun c => negb (mem (fst c) labels)) (columns df)))
  | missing => Err (KeyError missing)
  end.

(** *** Row alignment *)

(** The first position of label [r] in an index. *)
Fixpoint position (r : string) (idx : list string) : option nat :=
  match idx with
  | [] => None
  | x :: t => if String.eqb x r then Some 0 else option_map S (position r t)
  end.

(** Every position of label [r] in an index, in order. *)
Definition positions (r : string) (idx : list string) : list nat :=
  map fst (filter (fun p => String.eqb (snd p) r)
             (combine (seq 0 (List.length idx)) idx)).

(** The cell of a column at an optional position; no position, no value. *)
Definition take (col : list cell) (p : option nat) : cell :=
  match p with
  | Some i => nth i col NaN
  | None => NaN
  end.

Fixpoint unique (l : list string) : bool :=
  match l with
  | [] => true
  | x :: t => negb (mem x t) && unique t
  end.

(** The labels of [l] in order of first appearance. *)
Fixpoint dedup_from (seen l : list string) : list string :=
  match l with
  | [] => []
  | x :: t => if mem x seen then dedup_from seen t
              else x :: dedup_from (x :: seen) t
  end.

Definition dedup (l : list string) : list string := dedup_from [] l.

Definition list_eqb (a b : list string) : bool :=
  if list_eq_dec string_dec a b then true else false.

(** [pd.concat(dfs, axis=1, sort=False)]: the columns side by side, on the
    union of the row labels (outer join).  Frames with one and the same index
    are pasted as they are; otherwise every index must be free of repeated
    labels, and a frame has missing values on the labels it lacks.  Column
    names are not compared: a name two frames share occurs twice. *)
Definition concat_axis1 (dfs : list DataFrame) : result DataFrame :=
  match dfs with
  | [] => Err (ValueError "No objects to concatenate")
  | d0 :: _ =>
      if forallb (fun d => list_eqb (index d) (index d0)) dfs
      then OK (mkDF (index d0) (flat_map columns dfs))
      else if forallb (fun d => unique (index d)) dfs
      then
        let idx := dedup (flat_map index dfs) in
        OK (mkDF idx
              (flat_map
                 (fun d =>
                    map (fun c =>
                           (fst c,
                            map (fun r => take (snd c) (position r (index d))) idx))
                      (columns d))
                 dfs))
      else Err InvalidIndexError
  end.

(** [df.reindex(labels)]: the rows of [df] on the new row labels, in their
    order and with their repetitions; a label [df] lacks gets a row of
    missing values, a label of [df] that is not asked for is gone.  Unless
    the labels are the index itself, the index must have no repeated label. *)
Definition reindex (df : DataFrame) (labels : list string) : result DataFrame :=
  if list_eqb (index df) labels then OK df
  else if unique (index df)
  then OK (mkDF labels
             (map (fun c =>
                     (fst c,
                      map (fun r => take (snd c) (position r (index df))) labels))
                (columns df)))
  else Err (ValueError "cannot reindex on an axis with duplicate labels").

(** One output row of a left join: the row label, the row of the left frame
    and the matching row of the right frame, if any. *)
Record joined_row : Type := mkJoined {
  label : string;
  lpos : nat;
  rpos : option nat
}.

Definition join_plan (left right : DataFrame) : list joined_row :=
  flat_map
    (fun p =>
       match positions (snd p) (index right) with
       | [] => [mkJoined (snd p) (fst p) None]
       | js => map (fun j => mkJoined (snd p) (fst p) (Some j)) js
       end)
    (combine (seq 0 (nrows left)) (index left)).

(** [left.join(right)]: a left join on the row labels.  Every row of [left]
    is kept, in order, once per matching row of [right] and once when there
    is none (then with missing values in the columns of [right]).  This is
    the order of pandas 2.2; when a row label is repeated in one of the
    frames, the versions before 2.2 return the same rows sorted by label.
    A column name the two frames share is an error, as no suffix is
    given. *)
Definition join (left right : DataFrame) : result DataFrame :=
  if existsb (fun n => mem n (names right)) (names left)
  then Err (ValueError "columns overlap but no suffix specified")
  else
    let plan := join_plan left right in
    OK (mkDF (map label plan)
          (map (fun c => (fst c, map (fun e => nth (lpos e) (snd c) NaN) plan))
             (columns left)
           ++ map (fun c => (fst c, map (fun e => take (snd c) (rpos e)) plan))
                (columns right))).

(** *** Grouping *)

(** The functions a catalog can name: ["sum"] and ["mean"]. *)
Inductive aggfunc : Type := agg_sum | agg_mean.

Fixpoint count_valid (xs : list cell) : nat :=
  match xs with
  | [] => 0
  | Num _ :: r => S (count_valid r)
  | _ :: r => count_valid r
  end.

(** The sum of a group's values as [groupby] adds them: the values present,
    in the order of the rows, with a running compensation for the rounding
    of each addition (Kahan summation).  A string is a [TypeError]. *)
Fixpoint group_sum_from (sumx compensation : Q) (xs : list cell) : result Q :=
  match xs with
  | [] => OK sumx
  | Num val :: r =>
      let y := float64.sub val compensation in
      let t := float64.add sumx y in
      group_sum_from t (float64.sub (float64.sub t sumx) y) r
  | NaN :: r => group_sum_from sumx compensation r
  | Str _ :: r => Err TypeError
  end.

Definition group_sum (xs : list cell) : result Q := group_sum_from 0%Q 0%Q xs.

(** A group's values reduced: [sum] is the sum of the values present (0 when
    there is none), [mean] is that sum divided by their number (missing when
    there is none). *)
Definition reduce (f : aggfunc) (xs : list cell) : result cell :=
  match f with
  | agg_sum => s <- group_sum xs ;; OK (Num s)
  | agg_mean =>
      s <- group_sum xs ;;
      match count_valid xs with
      | O => OK NaN
      | S n => OK (Num (float64.div s (inject_Z (Z.of_nat (S n)))))
      end
  end.

(** The group key of a row: rows whose key is missing belong to no group
    ([dropna=True]).  Keys are sample identifiers, that is strings. *)
Definition key_of (c : cell) : result (option string) :=
  match c with
  | Str s => OK (Some s)
  | NaN => OK None
  | Num _ => Err TypeError
  end.

Fixpoint present (ks : list (option string)) : list string :=
  match ks with
  | [] => []
  | Some k :: r => k :: present r
  | None :: r => present r
  end.

Fixpoint insert_sorted (x : string) (l : list string) : list string :=
  match l with
  | [] => [x]
  | y :: t => if String.leb x y then x :: l else y :: insert_sorted x t
  end.

Definition sort (l : list string) : list string :=
  fold_right insert_sorted [] l.

(** The cells of a column on the rows whose key is [g]. *)
Fixpoint group_cells (g : string) (keys : list (option string)) (col : list cell)
    : list cell :=
  match keys with
  | [] => []
  | k :: ks =>
      let rest := group_cells g ks (tl col) in
      match k with
      | Some s => if String.eqb s g then hd NaN col :: rest else rest
      | None => rest
      end
  end.

(** [df.groupby(key).agg(spec)]: one row per distinct key, the keys sorted;
    for every entry of [spec], in its order, the columns of that name (in a
    frame with distinct column names: the column), each holding the group's
    values of that column reduced by the entry's function.  A column [spec]
    names and the frame lacks is a [KeyError]. *)
Definition groupby_agg (df : DataFrame) (key : string)
    (spec : list (string * aggfunc)) : result DataFrame :=
  match filter (fun c => String.eqb (fst c) key) (columns df) with
  | [] => Err (KeyError [key])
  | [kc] =>
      keys <- mapM key_of (map (fun i => nth i (snd kc) NaN) (seq 0 (nrows df))) ;;
      let groups := sort (dedup (present keys)) in
      match filter (fun e => negb (mem (fst e) (names df))) spec with
      | [] =>
          cs <- mapM
                  (fun e =>
                     mapM
                       (fun c =>
                          vs <- mapM (fun g => reduce (snd e) (group_cells g keys (snd c)))
                                  groups ;;
                          OK (fst e, vs))
                       (filter (fun c => String.eqb (fst c) (fst e)) (columns df)))
                  spec ;;
          OK (mkDF groups (List.concat cs))
      | missing => Err (KeyError (map fst missing))
      end
  | _ => Err (ValueError "Grouper not 1-dimensional")
  end.

(** [df.loc[:, labels]]: as [df[labels]]. *)
Definition loc_columns (df : DataFrame) (labels : list string) : result DataFrame :=
  getitem df labels.

Fixpoint get (mapping : list (string * string)) (k : string) : option string :=
  match mapping with
  | [] => None
  | (k', v) :: r => if String.eqb k' k then Some v else get r k
  end.

(** The new name of a column under [rename]: the mapping's, or its own. *)
Definition renamed (mapping : list (string * string)) (k : string) : string :=
  match get mapping k with
  | Some v => v
  | None => k
  end.

(** [df.rename(columns=mapping)] *)
Definition rename (df : DataFrame) (mapping : list (string * string)) : DataFrame :=
  mkDF (index df) (map (fun c => (renamed mapping (fst c), snd c)) (columns df)).

End pd.

(** ** aggregate_gene_body_coverage *)

Definition string_of_nat (n : nat) : string :=
  NilEmpty.string_of_uint (Nat.to_uint n).

(** [f"pos_{i}"] *)
Definition pos (i : nat) : string := "pos_" ++ string_of_nat i.

(** [[f"pos_{i}" for i in range(101)]] *)
Definition cols : list string := map pos (seq 0 101).

Definition five_prime : list string := firstn 33 cols.
Definition middle : list string := slice 33 68 cols.
Definition three_prime : list string := skipn 68 cols.

Definition aggregate_gene_body_coverage (df : DataFrame) : result DataFrame :=
  d1 <- pd.assign df "gene_body_five_prime"
          (fun x => s <- pd.getitem x five_prime ;; pd.sum_axis1 s) ;;
  d2 <- pd.assign d1 "gene_body_middle"
          (fun x => s <- pd.getitem x middle ;; pd.sum_axis1 s) ;;
  d3 <- pd.assign d2 "gene_body_three_prime"
          (fun x => s <- pd.getitem x three_prime ;; pd.sum_axis1 s) ;;
  pd.drop d3 cols.

(** ** The feature catalog *)

Definition FEATURE_AGG : list (string * pd.aggfunc) :=
  [ ("rRNA_pct_reads_mapped", pd.agg_mean);
    ("too_short", pd.agg_sum);
    ("num_reads", pd.agg_sum);
    ("num_multimappers", pd.agg_sum);
    ("per_alignment", pd.agg_mean);
    ("reads_MQ0", pd.agg_sum);
    ("average_quality", pd.agg_mean);
    ("Percent Reverse", pd.agg_mean);
    ("percent_utr_bases", pd.agg_mean);
    ("percent_intronic_bases", pd.agg_mean);
    ("percent_intergenic_bases", pd.agg_mean);
    ("percent_mrna_bases", pd.agg_mean);
    ("median_cv_coverage", pd.agg_mean);
    ("percent_duplication", pd.agg_mean);
    ("number_genic_reads", pd.agg_sum);
    ("percent_genes_on", pd.agg_mean);
    ("number_junction_reads", pd.agg_sum);
    ("number_junctions_on", pd.agg_sum);
    ("gene_body_five_prime", pd.agg_mean);
    ("gene_body_middle", pd.agg_mean);
    ("gene_body_three_prime", pd.agg_mean) ].

Definition FEATURE_RENAME : list (string * string) :=
  [ ("rRNA_pct_reads_mapped", "percent_rrna_reads");
    ("too_short", "number_reads_too_short");
    ("num_reads", "number_reads");
    ("num_multimappers", "number_multimapping_reads");
    ("per_alignment", "percent_alignment");
    ("Percent Reverse", "percent_reverse") ].

(** [FEATURE_AGG.keys()] *)
Definition keys {V : Type} (d : list (string * V)) : list string := map fst d.

(** ** Files *)

(** A tab-separated text file as [pd.read_table] returns it: the header
    names and, under each, the values of the column.  The values are
    identifiers (run and sample accessions) and are kept as strings; a file
    with empty fields or with identifiers that read as numbers, which
    [pd.read_table] would not return as strings, is not a [TextTable]. *)
Definition TextTable : Type := list (string * list string).

(** The files the program touches: text tables and parquet tables, by
    path.  Paths under the Features directory are given relative to it. *)
Record FileSystem : Type := mkFS {
  text_files : string -> option TextTable;
  parquet_files : string -> option DataFrame
}.

Definition read_table (fs : FileSystem) (path : string) : result TextTable :=
  match text_files fs path with
  | Some t => OK t
  | None => Err (FileNotFoundError path)
  end.

Definition read_parquet (fs : FileSystem) (path : string) : result DataFrame :=
  match parquet_files fs path with
  | Some df => OK df
  | None => Err (FileNotFoundError path)
  end.

(** [df.to_parquet(path)]: the table is stored at [path]; a table with a
    repeated column name cannot be stored, and nothing is written. *)
Definition to_parquet (df : DataFrame) (path : string) (fs : FileSystem)
    : result unit * FileSystem :=
  if pd.unique (names df)
  then (OK tt,
        mkFS (text_files fs)
          (fun p => if String.eqb p path then Some df else parquet_files fs p))
  else (Err (ValueError "Duplicate column names found"), fs).

(** [t.columns = new] *)
Definition set_columns (t : TextTable) (new : list string) : TextTable :=
  combine new (map snd t).

(** [t[name]]: the first column of that name. *)
Definition text_column (t : TextTable) (name : string) : result (list string) :=
  match find (fun c => String.eqb (fst c) name) t with
  | Some c => OK (snd c)
  | None => Err (KeyError [name])
  end.

(** [t.set_index(name, drop=False)]: the rows are labelled by the values of
    the column, which stays among the columns. *)
Definition set_index (t : TextTable) (name : string) : result DataFrame :=
  idx <- text_column t name ;;
  OK (mkDF idx (map (fun c => (fst c, map Str (snd c))) t)).

(** ** workflow_data *)

(** The parquet tables are read by a pool of workers; [pool.map] returns
    them in the order of the paths, and a read that fails fails the call.
    [rename_axis] names the index and changes no label and no value. *)
Definition workflow_data (fs : FileSystem) (srrs : list string)
    (workflow_folders : list (string * string)) : result DataFrame :=
  dfs <- mapM (read_parquet fs) (map snd workflow_folders) ;;
  df <- pd.concat_axis1 dfs ;;
  pd.reindex df srrs.

(** ** build_features *)

Definition feature_dict : list (string * string) :=
  [ ("layout", "layout.parquet");
    ("fastq_screen", "fastq_screen.parquet");
    ("atropos", "atropos.parquet");
    ("hisat2", "hisat2.parquet");
    ("aln_stats", "aln_stats.parquet");
    ("rnaseqmetrics", "rnaseqmetrics.parquet");
    ("genebody_coverage", "genebody_coverage.parquet");
    ("markduplicates", "markduplicates.parquet");
    ("count_summary", "count_summary.parquet") ].

Definition done_sample_file : string := "done_sample.txt".

(** The manifest with its columns named: one column is srr, two columns are
    srx and srr, and the index is the srr column. *)
Definition read_manifest (fs : FileSystem) (input : string) : result DataFrame :=
  srr_df <- read_table fs input ;;
  let srr_df :=
    if Nat.eqb (List.length srr_df) 1 then set_columns srr_df ["srr"]
    else if Nat.eqb (List.length srr_df) 2 then set_columns srr_df ["srx"; "srr"]
    else srr_df in
  set_index srr_df "srr".

(** [done_sample_df["srr"].values.tolist()] *)
Definition read_done_srrs (fs : FileSystem) : result (list string) :=
  done_sample_df <- read_table fs done_sample_file ;;
  text_column done_sample_df "srr".

(** The table the two branches share: the loaded metrics joined with the
    manifest, with the coverage curve reduced. *)
Definition joined_table (fs : FileSystem) (srr_df : DataFrame)
    (done_srrs : list string) : result DataFrame :=
  wd <- workflow_data fs done_srrs feature_dict ;;
  j <- pd.join wd srr_df ;;
  aggregate_gene_body_coverage j.

(** The table that [build_features] hands to [to_parquet]. *)
Definition feature_table (fs : FileSystem) (input : string) : result DataFrame :=
  srr_df <- read_manifest fs input ;;
  done_srrs <- read_done_srrs fs ;;
  if Nat.eqb (List.length (columns srr_df)) 2
  then
    t <- joined_table fs srr_df done_srrs ;;
    g <- pd.groupby_agg t "srx" FEATURE_AGG ;;
    OK (pd.rename g FEATURE_RENAME)
  else
    t <- joined_table fs srr_df done_srrs ;;
    s <- pd.loc_columns t (keys FEATURE_AGG) ;;
    OK (pd.rename s FEATURE_RENAME).

(** The program: its outcome and the files after it. *)
Definition build_features (input : string) (fs : FileSystem)
    : result unit * FileSystem :=
  match feature_table fs input with
  | OK df => to_parquet df "features.parquet" fs
  | Err e => (Err e, fs)
  end.

(** * The vocabulary of the statements

    What the theorems below say about the program is said with these
    definitions: sums over a row, columns by name, the shape of the reduced
    table, the concrete tables and files the examples run on. *)

(** The labels a frame lacks, as [KeyError] reports them. *)
Definition missing_from (ns labels : list string) : list string :=
  filter (fun l => negb (mem l ns)) labels.

Definition is_str (c : cell) : bool :=
  match c with
  | Str _ => true
  | _ => false
  end.

(** The float64 sum of the numbers of a list of cells, added in order;
    other cells count for nothing. *)
Fixpoint total_from (acc : Q) (xs : list cell) : Q :=
  match xs with
  | [] => acc
  | Num q :: r => total_from (float64.add acc q) r
  | _ :: r => total_from acc r
  end.

Definition total (xs : list cell) : Q := total_from 0%Q xs.









(** The cells of row [i] in the columns named by [labels], label by label. *)
Definition cells_at (df : DataFrame) (labels : list string) (i : nat) : list cell :=
  flat_map
    (fun l => map (fun c => nth i (snd c) NaN)
                (filter (fun c => String.eqb (fst c) l) (columns df)))
    labels.

(** The series of the row sums over the columns named by [labels]. *)
Definition sums (df : DataFrame) (labels : list string) : list cell :=
  map (fun i => Num (total (cells_at df labels i))) (seq 0 (nrows df)).

(** The columns named by [labels] hold numbers and missing values only. *)
Definition numeric_on (df : DataFrame) (labels : list string) : Prop :=
  forall c x, In c (columns df) -> In (fst c) labels -> In x (snd c) ->
              is_str x = false.

(** [x[labels].sum(axis=1)], the body of the three lambdas. *)
Definition select_sum (x : DataFrame) (labels : list string) : result (list cell) :=
  s <- pd.getitem x labels ;; pd.sum_axis1 s.

Definition tertiles : list string :=
  ["gene_body_five_prime"; "gene_body_middle"; "gene_body_three_prime"].

(** The table the reducer returns when it returns one. *)
Definition reduced (df : DataFrame) : DataFrame :=
  let d1 := pd.setitem df "gene_body_five_prime" (sums df five_prime) in
  let d2 := pd.setitem d1 "gene_body_middle" (sums df middle) in
  let d3 := pd.setitem d2 "gene_body_three_prime" (sums df three_prime) in
  mkDF (index df) (filter (fun c => negb (mem (fst c) cols)) (columns d3)).

(** The labels of the positions [a <= i < b]. *)
Definition pos_range (a b : nat) : list string := map pos (seq a (b - a)).

(** Every column called [n] holds [v], and there is one. *)
Definition named_all (df : DataFrame) (n : string) (v : list cell) : Prop :=
  In n (names df) /\
  forall c, In c (columns df) -> fst c = n -> snd c = v.

Definition presentb (df : DataFrame) (labels : list string) : bool :=
  forallb (fun l => mem l (names df)) labels.

Definition numeric_onb (df : DataFrame) (labels : list string) : bool :=
  forallb
    (fun c => negb (mem (fst c) labels) || forallb (fun x => negb (is_str x)) (snd c))
    (columns df).

(** A table of two runs: the first has coverage 1 at every position, the
    second has no coverage values at all. *)
Definition coverage_example : DataFrame :=
  mkDF ["SRR1"; "SRR2"]
    (("layout", [Str "PE"; Str "SE"])
     :: map (fun n => (n, [Num 1%Q; NaN])) (map pos (seq 0 101))).

(** What the reducer returns on [coverage_example]. *)
Definition coverage_example_reduced : DataFrame :=
  mkDF ["SRR1"; "SRR2"]
    [ ("layout", [Str "PE"; Str "SE"]);
      ("gene_body_five_prime", [Num 33%Q; Num 0%Q]);
      ("gene_body_middle", [Num 35%Q; Num 0%Q]);
      ("gene_body_three_prime", [Num 33%Q; Num 0%Q]) ].

(** A table with the columns pos_0 .. pos_99 and no pos_100. *)
Definition coverage_partial : DataFrame :=
  mkDF ["SRR1"] (map (fun n => (n, [Num 1%Q])) (map pos (seq 0 100))).

(** The columns called [n], in order. *)
Definition columns_named (df : DataFrame) (n : string) : list (string * list cell) :=
  filter (fun c => String.eqb (fst c) n) (columns df).

(** A table with one row and the catalog's columns. *)
Definition catalog_frame : DataFrame :=
  mkDF ["SRX1"] (map (fun k => (k, [Num 1%Q])) (keys FEATURE_AGG)).

Fixpoint lookup_file {A : Type} (files : list (string * A)) (path : string)
    : option A :=
  match files with
  | [] => None
  | (p, a) :: r => if String.eqb p path then Some a else lookup_file r path
  end.

(** Three runs are complete; R1 and R2 belong to sample S1 and R3 to S2.
    The source tables have rows for R1 and R2 (markduplicates for R2 only)
    and none for R3; layout also has a row for R9, a run that is not
    complete; num_reads is 10 for R1 and 20 for R2. *)
Definition scenario_sources : list (string * DataFrame) :=
  [ ("layout.parquet",
     mkDF ["R1"; "R2"; "R9"] [("layout", [Str "PE"; Str "SE"; Str "PE"])]);
    ("fastq_screen.parquet",
     mkDF ["R1"; "R2"] [("rRNA_pct_reads_mapped", [Num 1%Q; Num 3%Q])]);
    ("atropos.parquet",
     mkDF ["R1"; "R2"] [("too_short", [Num 2%Q; Num 4%Q])]);
    ("hisat2.parquet",
     mkDF ["R1"; "R2"]
       [ ("num_reads", [Num 10%Q; Num 20%Q]);
         ("num_multimappers", [Num 1%Q; Num 2%Q]);
         ("per_alignment", [Num 90%Q; Num 80%Q]) ]);
    ("aln_stats.parquet",
     mkDF ["R1"; "R2"]
       [ ("reads_MQ0", [Num 0%Q; Num 1%Q]);
         ("average_quality", [Num 30%Q; Num 34%Q]);
         ("Percent Reverse", [Num 50%Q; NaN]) ]);
    ("rnaseqmetrics.parquet",
     mkDF ["R1"; "R2"]
       [ ("percent_utr_bases", [Num 10%Q; Num 20%Q]);
         ("percent_intronic_bases", [Num 5%Q; Num 7%Q]);
         ("percent_intergenic_bases", [Num 1%Q; Num 1%Q]);
         ("percent_mrna_bases", [Num 80%Q; Num 70%Q]);
         ("median_cv_coverage", [Num 1%Q; Num 2%Q]) ]);
    ("genebody_coverage.parquet",
     mkDF ["R1"; "R2"]
       (map (fun n => (n, [Num 1%Q; Num 2%Q])) (map pos (seq 0 101))));
    ("markduplicates.parquet",
     mkDF ["R2"] [("percent_duplication", [Num 12%Q])]);
    ("count_summary.parquet",
     mkDF ["R1"; "R2"]
       [ ("number_genic_reads", [Num 8%Q; Num 16%Q]);
         ("percent_genes_on", [Num 40%Q; Num 60%Q]);
         ("number_junction_reads", [Num 3%Q; Num 5%Q]);
         ("number_junctions_on", [Num 2%Q; Num 2%Q]) ]) ].

Definition scenario_texts : list (string * TextTable) :=
  [ ("manifest.tsv",
     [("sample", ["S1"; "S1"; "S2"]); ("run", ["R1"; "R2"; "R3"])]);
    ("runs.tsv", [("run", ["R1"; "R2"; "R3"])]);
    ("done_sample.txt", [("srr", ["R1"; "R2"; "R3"])]) ].

Definition scenario : FileSystem :=
  mkFS (lookup_file scenario_texts) (lookup_file scenario_sources).

(** The feature table written for a manifest, if one is. *)
Definition written (input : string) (fs : FileSystem) : option DataFrame :=
  parquet_files (snd (build_features input fs)) "features.parquet".



(** The columns of the source tables in order, each with the row labels of
    its table. *)
Definition source_columns (dfs : list DataFrame)
    : list (list string * (string * list cell)) :=
  flat_map (fun df => map (fun c => (index df, c)) (columns df)) dfs.

(** The column [oc] is the source column [sc] on the row labels [srrs]: it
    has the name of the source column and one cell per label, the cell the
    source has at the row of that label, and a missing value when the source
    has no such row. *)
Definition padded_onto (srrs : list string) (oc : string * list cell)
    (sc : list string * (string * list cell)) : Prop :=
  fst oc = fst (snd sc) /\
  List.length (snd oc) = List.length srrs /\
  forall i r, nth_error srrs i = Some r ->
    (forall j, nth_error (fst sc) j = Some r ->
               nth i (snd oc) NaN = nth j (snd (snd sc)) NaN) /\
    (~ In r (fst sc) -> nth i (snd oc) NaN = NaN).

(** A run whose markduplicates table lacks percent_duplication. *)
Definition scenario_broken : FileSystem :=
  mkFS (lookup_file scenario_texts)
    (lookup_file
       (("markduplicates.parquet",
         mkDF ["R2"] [("estimated_library_size", [Num 5%Q])])
        :: scenario_sources)).

(** The (sample, run) rows of a manifest of two columns. *)
Definition manifest_pairs (m : TextTable) : list (string * string) :=
  match m with
  | [(_, srxs); (_, srrs)] => combine srxs srrs
  | _ => []
  end.

(** The runs of a manifest of one column. *)
Definition manifest_runs (m : TextTable) : list string :=
  match m with
  | [(_, srrs)] => srrs
  | _ => []
  end.

(** The sample IDs of the manifest rows whose run is in the completion
    list. *)
Definition samples_of_done (m : TextTable) (done_srrs : list string) : list string :=
  map fst (filter (fun p => mem (snd p) done_srrs) (manifest_pairs m)).

(** The column names of the feature table: the public names of the catalog,
    in its order. *)
Definition public_names : list string :=
  [ "percent_rrna_reads"; "number_reads_too_short"; "number_reads";
    "number_multimapping_reads"; "percent_alignment"; "reads_MQ0";
    "average_quality"; "percent_reverse"; "percent_utr_bases";
    "percent_intronic_bases"; "percent_intergenic_bases"; "percent_mrna_bases";
    "median_cv_coverage"; "percent_duplication"; "number_genic_reads";
    "percent_genes_on"; "number_junction_reads"; "number_junctions_on";
    "gene_body_five_prime"; "gene_body_middle"; "gene_body_three_prime" ].

(** The columns of a source table brought onto the row labels [labels]:
    the value of a label is the value at its row in the source, and missing
    when the source has no such row. *)
Definition aligned (df : DataFrame) (labels : list string)
    : list (string * list cell) :=
  map (fun c =>
         (fst c, map (fun r => pd.take (snd c) (pd.position r (index df))) labels))
    (columns df).

(** [wf], decided. *)
Definition wfb (df : DataFrame) : bool :=
  forallb (fun c => Nat.eqb (List.length (snd c)) (nrows df)) (columns df).

(** The order of the rows after [groupby]: ascending, by [String.leb]. *)
Definition ascending (l : list string) : Prop :=
  Sorted (fun a b => String.leb a b = true) l.

(** * Lemmas on the pandas operations and on the reducer *)

(** ** float64 on whole numbers *)









(** ** Whole cells *)











(** ** Lists of labels *)

Lemma mem_In (s : string) (l : list string) : mem s l = true <-> In s l.
Proof.
  unfold mem. rewrite existsb_exists. split.
  - intros [x [Hx He]]. apply String.eqb_eq in He. now subst.
  - intros H. exists s. split; [assumption | apply String.eqb_refl].
Qed.

Lemma mem_false (s : string) (l : list string) : mem s l = false <-> ~ In s l.
Proof.
  rewrite <- mem_In. destruct (mem s l); split; congruence.
Qed.

Lemma missing_nil (ns labels : list string) :
  missing_from ns labels = [] <-> (forall l, In l labels -> In l ns).
Proof.
  unfold missing_from. split.
  - intros H l Hl. destruct (mem l ns) eqn:E; [now apply mem_In|].
    assert (In l (filter (fun l => negb (mem l ns)) labels)) as Hin
      by (apply filter_In; split; [assumption | now rewrite E]).
    rewrite H in Hin. contradiction.
  - intros H. induction labels as [|a t IH]; [reflexivity|].
    simpl. assert (mem a ns = true) as -> by (apply mem_In, H; now left).
    simpl. apply IH. intros l Hl. apply H. now right.
Qed.

Lemma missing_all (ns labels : list string) :
  (forall l, In l labels -> ~ In l ns) -> missing_from ns labels = labels.
Proof.
  intros H. unfold missing_from. induction labels as [|a t IH]; [reflexivity|].
  simpl. assert (mem a ns = false) as -> by (apply mem_false, H; now left).
  simpl. f_equal. apply IH. intros l Hl. apply H. now right.
Qed.

Lemma missing_In (ns labels : list string) (l : string) :
  In l (missing_from ns labels) <-> In l labels /\ ~ In l ns.
Proof.
  unfold missing_from. rewrite filter_In, negb_true_iff, mem_false. tauto.
Qed.

(** ** Row sums *)

Lemma nansum_from_cases (xs : list cell) (acc : Q) :
  pd.nansum_from acc xs = OK (total_from acc xs) \/
  pd.nansum_from acc xs = Err TypeError.
Proof.
  revert acc. induction xs as [|c r IH]; simpl; intros acc; [now left|].
  destruct c as [q| |s]; [apply IH | apply IH | now right].
Qed.

Lemma nansum_cases (xs : list cell) :
  pd.nansum xs = OK (total xs) \/ pd.nansum xs = Err TypeError.
Proof. apply nansum_from_cases. Qed.

Lemma nansum_total (xs : list cell) (q : Q) : pd.nansum xs = OK q -> q = total xs.
Proof.
  intros H. destruct (nansum_cases xs) as [E | E]; rewrite E in H;
    [now inversion H | discriminate].
Qed.

Lemma nansum_from_numeric (xs : list cell) (acc : Q) :
  (forall x, In x xs -> is_str x = false) ->
  pd.nansum_from acc xs = OK (total_from acc xs).
Proof.
  revert acc. induction xs as [|c r IH]; simpl; intros acc H; [reflexivity|].
  assert (forall x, In x r -> is_str x = false) as Hr
    by (intros; apply H; now right).
  destruct c as [q| |s]; [now apply IH | now apply IH |].
  specialize (H (Str s) (or_introl eq_refl)). discriminate.
Qed.

Lemma nansum_numeric (xs : list cell) :
  (forall x, In x xs -> is_str x = false) -> pd.nansum xs = OK (total xs).
Proof. apply nansum_from_numeric. Qed.

Lemma mapM_ok_map {A B : Type} (f : A -> result B) (g : A -> B) (l : list A) :
  (forall a, In a l -> f a = OK (g a)) -> mapM f l = OK (map g l).
Proof.
  induction l as [|a t IH]; simpl; intros H; [reflexivity|].
  rewrite (H a (or_introl eq_refl)). simpl.
  rewrite IH by (intros; apply H; now right). reflexivity.
Qed.

Lemma mapM_inv_map {A B : Type} (f : A -> result B) (g : A -> B) (l : list A)
    (bs : list B) :
  (forall a b, f a = OK b -> b = g a) -> mapM f l = OK bs -> bs = map g l.
Proof.
  intros Hf. revert bs. induction l as [|a t IH]; simpl; intros bs H.
  - now inversion H.
  - destruct (f a) as [b|e] eqn:Ea; simpl in H; [|discriminate].
    destruct (mapM f t) as [bs'|e] eqn:Et; simpl in H; [|discriminate].
    inversion H. f_equal; [now apply Hf | now apply IH].
Qed.

Lemma mapM_length {A B : Type} (f : A -> result B) (l : list A) (bs : list B) :
  mapM f l = OK bs -> List.length bs = List.length l.
Proof.
  revert bs. induction l as [|a t IH]; simpl; intros bs H.
  - now inversion H.
  - destruct (f a) as [b|e]; simpl in H; [|discriminate].
    destruct (mapM f t) as [bs'|e]; simpl in H; [|discriminate].
    inversion H. simpl. f_equal. now apply IH.
Qed.

(** ** Selecting columns and summing rows *)

Lemma getitem_ok (df : DataFrame) (labels : list string) :
  (forall l, In l labels -> In l (names df)) ->
  pd.getitem df labels =
  OK (mkDF (index df)
        (flat_map (fun l => filter (fun c => String.eqb (fst c) l) (columns df)) labels)).
Proof.
  intros H. apply missing_nil in H. unfold pd.getitem.
  change (filter (fun l => negb (mem l (names df))) labels)
    with (missing_from (names df) labels).
  now rewrite H.
Qed.

Lemma getitem_err (df : DataFrame) (labels : list string) (l : string) :
  In l labels -> ~ In l (names df) ->
  pd.getitem df labels = Err (KeyError (missing_from (names df) labels)).
Proof.
  intros Hl Hn. unfold pd.getitem.
  change (filter (fun l => negb (mem l (names df))) labels)
    with (missing_from (names df) labels).
  destruct (missing_from (names df) labels) eqn:E; [|reflexivity].
  exfalso. apply Hn. now apply (proj1 (missing_nil _ _) E).
Qed.

Lemma getitem_cases (df : DataFrame) (labels : list string) :
  ((forall l, In l labels -> In l (names df)) /\
   pd.getitem df labels =
   OK (mkDF (index df)
         (flat_map (fun l => filter (fun c => String.eqb (fst c) l) (columns df))
            labels)))
  \/
  (missing_from (names df) labels <> [] /\
   pd.getitem df labels = Err (KeyError (missing_from (names df) labels))).
Proof.
  destruct (missing_from (names df) labels) eqn:E.
  - left. pose proof (proj1 (missing_nil _ _) E) as Hp.
    split; [assumption | now apply getitem_ok].
  - right. split; [discriminate|].
    assert (In s (missing_from (names df) labels)) as Hs by (rewrite E; now left).
    apply missing_In in Hs. destruct Hs as [H1 H2].
    rewrite <- E. now apply (getitem_err df labels s).
Qed.

Lemma row_selection (df : DataFrame) (labels : list string) (i : nat) :
  row (mkDF (index df)
         (flat_map (fun l => filter (fun c => String.eqb (fst c) l) (columns df))
            labels)) i
  = cells_at df labels i.
Proof.
  unfold row, cells_at. simpl.
  induction labels as [|l t IH]; simpl; [reflexivity|].
  now rewrite map_app, IH.
Qed.

Lemma cells_at_In (df : DataFrame) (labels : list string) (i : nat) (x : cell) :
  In x (cells_at df labels i) ->
  exists c, In c (columns df) /\ In (fst c) labels /\ x = nth i (snd c) NaN.
Proof.
  unfold cells_at. rewrite in_flat_map. intros [l [Hl Hx]].
  apply in_map_iff in Hx. destruct Hx as [c [Hc Hin]].
  apply filter_In in Hin. destruct Hin as [Hin He].
  apply String.eqb_eq in He. exists c. subst. auto.
Qed.

Lemma nth_not_str (col : list cell) (i : nat) :
  (forall x, In x col -> is_str x = false) -> is_str (nth i col NaN) = false.
Proof.
  intros H. destruct (nth_in_or_default i col NaN) as [Hin | ->]; auto.
Qed.

Lemma select_sum_ok (df : DataFrame) (labels : list string) :
  (forall l, In l labels -> In l (names df)) ->
  numeric_on df labels ->
  select_sum df labels = OK (sums df labels).
Proof.
  intros Hp Hn. unfold select_sum. rewrite getitem_ok by assumption. simpl.
  unfold pd.sum_axis1, sums. apply mapM_ok_map. intros i _.
  rewrite row_selection. rewrite nansum_numeric; [reflexivity|].
  intros x Hx. apply cells_at_In in Hx. destruct Hx as [c [Hc [Hl ->]]].
  apply nth_not_str. intros y Hy. now apply (Hn c y).
Qed.

Lemma select_sum_inv (df : DataFrame) (labels : list string) (v : list cell) :
  select_sum df labels = OK v ->
  (forall l, In l labels -> In l (names df)) /\ v = sums df labels.
Proof.
  unfold select_sum. intros H.
  destruct (getitem_cases df labels) as [[Hp E] | [_ E]]; rewrite E in H;
    simpl in H; [|discriminate].
  split; [assumption|]. unfold pd.sum_axis1 in H. unfold sums.
  apply (mapM_inv_map _ (fun i => Num (total (cells_at df labels i)))) in H;
    [assumption|].
  intros i b Hb. rewrite row_selection in Hb.
  destruct (pd.nansum (cells_at df labels i)) as [q|e] eqn:Eq; simpl in Hb;
    [|discriminate].
  inversion Hb. now rewrite (nansum_total _ _ Eq).
Qed.

Lemma select_sum_missing (df : DataFrame) (labels : list string) (l : string) :
  In l labels -> ~ In l (names df) ->
  select_sum df labels = Err (KeyError (missing_from (names df) labels)).
Proof.
  intros Hl Hn. unfold select_sum. now rewrite (getitem_err df labels l).
Qed.

(** A sum over rows fails on a string only. *)
Lemma select_sum_cases (df : DataFrame) (labels : list string) :
  select_sum df labels = OK (sums df labels) \/
  select_sum df labels = Err TypeError \/
  (missing_from (names df) labels <> [] /\
   select_sum df labels = Err (KeyError (missing_from (names df) labels))).
Proof.
  unfold select_sum.
  destruct (getitem_cases df labels) as [[Hp E] | [Hm E]]; rewrite E; simpl.
  - unfold pd.sum_axis1, sums, nrows. simpl.
    generalize (seq 0 (List.length (index df))). intros l.
    match goal with
    | |- ?a = _ \/ ?b = _ \/ _ => enough (a = OK (map (fun i => Num (total (cells_at df labels i))) l) \/ b = Err TypeError) by tauto
    end.
    induction l as [|i t IH]; simpl; [now left|].
    rewrite row_selection.
    destruct (nansum_cases (cells_at df labels i)) as [-> | ->]; simpl.
    + destruct IH as [IH | IH]; rewrite IH; simpl; [now left | now right].
    + now right.
  - right. right. split; [assumption | reflexivity].
Qed.

(** ** Storing a column *)

Lemma index_setitem (df : DataFrame) (n : string) (v : list cell) :
  index (pd.setitem df n v) = index df.
Proof. unfold pd.setitem. now destruct (mem n (names df)). Qed.

Lemma names_setitem (df : DataFrame) (n : string) (v : list cell) (l : string) :
  In l (names (pd.setitem df n v)) <-> l = n \/ In l (names df).
Proof.
  unfold pd.setitem, names. destruct (mem n (map fst (columns df))) eqn:E; simpl.
  - apply mem_In in E. rewrite map_map. split.
    + intros H. apply in_map_iff in H. destruct H as [c [Hc Hin]].
      destruct (String.eqb (fst c) n) eqn:Ec; simpl in Hc.
      * now left.
      * right. subst. now apply in_map.
    + intros [-> | H]; [|].
      * apply in_map_iff in E. destruct E as [c [Hc Hin]].
        apply in_map_iff. exists c. split; [|assumption].
        rewrite Hc, String.eqb_refl. reflexivity.
      * apply in_map_iff in H. destruct H as [c [Hc Hin]].
        apply in_map_iff. exists c. split; [|assumption].
        destruct (String.eqb (fst c) n) eqn:Ec; simpl; [|assumption].
        apply String.eqb_eq in Ec. congruence.
  - rewrite map_app, in_app_iff. simpl. intuition congruence.
Qed.

Lemma filter_setitem_other (df : DataFrame) (n : string) (v : list cell) (l : string) :
  l <> n ->
  filter (fun c => String.eqb (fst c) l) (columns (pd.setitem df n v))
  = filter (fun c => String.eqb (fst c) l) (columns df).
Proof.
  intros Hl. assert (String.eqb n l = false) as Hnl
    by (apply String.eqb_neq; congruence).
  unfold pd.setitem. destruct (mem n (names df)); simpl.
  - induction (columns df) as [|c t IH]; simpl; [reflexivity|].
    destruct (String.eqb (fst c) n) eqn:Ec; simpl.
    + apply String.eqb_eq in Ec. rewrite Ec, Hnl. assumption.
    + destruct (String.eqb (fst c) l); [now rewrite IH | assumption].
  - rewrite filter_app. simpl. rewrite Hnl. apply app_nil_r.
Qed.

Lemma filter_setitem_same (df : DataFrame) (n : string) (v : list cell) (c : string * list cell) :
  In c (columns (pd.setitem df n v)) -> fst c = n -> c = (n, v).
Proof.
  unfold pd.setitem. destruct (mem n (names df)) eqn:Em; simpl; intros Hin Hc.
  - apply in_map_iff in Hin. destruct Hin as [c0 [H0 _]].
    destruct (String.eqb (fst c0) n) eqn:E; [now subst|].
    subst c0. apply String.eqb_neq in E. contradiction.
  - apply in_app_iff in Hin. destruct Hin as [Hin | [Hin | []]]; [|now subst].
    apply (in_map fst) in Hin. fold (names df) in Hin.
    rewrite Hc in Hin. apply mem_In in Hin. congruence.
Qed.

Lemma cells_at_setitem (df : DataFrame) (n : string) (v : list cell)
    (labels : list string) (i : nat) :
  ~ In n labels ->
  cells_at (pd.setitem df n v) labels i = cells_at df labels i.
Proof.
  intros Hn. unfold cells_at. induction labels as [|l t IH]; simpl; [reflexivity|].
  rewrite filter_setitem_other by (intros ->; apply Hn; now left).
  f_equal. apply IH. intros H. apply Hn. now right.
Qed.

Lemma sums_setitem (df : DataFrame) (n : string) (v : list cell)
    (labels : list string) :
  ~ In n labels -> sums (pd.setitem df n v) labels = sums df labels.
Proof.
  intros Hn. unfold sums, nrows. rewrite index_setitem.
  apply map_ext. intros i. now rewrite cells_at_setitem.
Qed.

Lemma numeric_on_setitem (df : DataFrame) (n : string) (v : list cell)
    (labels : list string) :
  ~ In n labels -> numeric_on df labels -> numeric_on (pd.setitem df n v) labels.
Proof.
  intros Hn H c x Hc Hl Hx.
  assert (In c (filter (fun c' => String.eqb (fst c') (fst c))
                  (columns (pd.setitem df n v)))) as Hf
    by (apply filter_In; split; [assumption | apply String.eqb_refl]).
  rewrite filter_setitem_other in Hf by (intros E; apply Hn; now rewrite <- E).
  apply filter_In in Hf. now apply (H c x).
Qed.

(** ** The coverage reducer, step by step *)

Lemma cols_split : cols = five_prime ++ middle ++ three_prime.
Proof. reflexivity. Qed.

Lemma tertile_not_pos (n : string) : In n tertiles -> ~ In n cols.
Proof.
  intros H. apply mem_false.
  destruct H as [<- | [<- | [<- | []]]]; vm_compute; reflexivity.
Qed.

Lemma In_five_prime (l : string) : In l five_prime -> In l cols.
Proof. rewrite cols_split, in_app_iff. tauto. Qed.

Lemma In_middle (l : string) : In l middle -> In l cols.
Proof. rewrite cols_split, !in_app_iff. tauto. Qed.

Lemma In_three_prime (l : string) : In l three_prime -> In l cols.
Proof. rewrite cols_split, !in_app_iff. tauto. Qed.

Lemma cols_range : cols = pos_range 0 101.
Proof. reflexivity. Qed.

Lemma five_prime_range : five_prime = pos_range 0 33.
Proof. vm_compute. reflexivity. Qed.



Lemma cols_length : List.length cols = 101.
Proof. vm_compute. reflexivity. Qed.




Lemma In_cols (l : string) : In l cols <-> exists i, i < 101 /\ l = pos i.
Proof.
  rewrite cols_range. unfold pos_range. rewrite in_map_iff. split.
  - intros [i [Hi Hin]]. apply in_seq in Hin. exists i. split; [lia | auto].
  - intros [i [Hi ->]]. exists i. split; [reflexivity | apply in_seq; lia].
Qed.

(** From here on the lists of position labels are handled through the
    lemmas above, not by unfolding their 101 strings. *)
#[global] Opaque cols five_prime middle three_prime.

Lemma tertile_not_in (n : string) (labels : list string) :
  In n tertiles -> (forall l, In l labels -> In l cols) -> ~ In n labels.
Proof.
  intros Hn Hs H. apply (tertile_not_pos n Hn). now apply Hs.
Qed.

(** The chain of three [assign] and one [drop], for any lists of labels. *)
Lemma assign_chain (l5 lm l3 lall : list string) (n5 nm n3 : string)
    (df : DataFrame) :
  (d1 <- pd.assign df n5 (fun x => s <- pd.getitem x l5 ;; pd.sum_axis1 s) ;;
   d2 <- pd.assign d1 nm (fun x => s <- pd.getitem x lm ;; pd.sum_axis1 s) ;;
   d3 <- pd.assign d2 n3 (fun x => s <- pd.getitem x l3 ;; pd.sum_axis1 s) ;;
   pd.drop d3 lall)
  =
  (v5 <- select_sum df l5 ;;
   vm <- select_sum (pd.setitem df n5 v5) lm ;;
   v3 <- select_sum (pd.setitem (pd.setitem df n5 v5) nm vm) l3 ;;
   pd.drop (pd.setitem (pd.setitem (pd.setitem df n5 v5) nm vm) n3 v3) lall).
Proof.
  unfold pd.assign, select_sum.
  destruct (pd.getitem df l5) as [s5|e]; cbn [bind]; [|reflexivity].
  destruct (pd.sum_axis1 s5) as [v5|e]; cbn [bind]; [|reflexivity].
  destruct (pd.getitem (pd.setitem df n5 v5) lm) as [sm|e]; cbn [bind];
    [|reflexivity].
  destruct (pd.sum_axis1 sm) as [vm|e]; cbn [bind]; [|reflexivity].
  destruct (pd.getitem (pd.setitem (pd.setitem df n5 v5) nm vm) l3) as [s3|e];
    cbn [bind]; [|reflexivity].
  destruct (pd.sum_axis1 s3) as [v3|e]; cbn [bind]; reflexivity.
Qed.

Lemma aggregate_unfold (df : DataFrame) :
  aggregate_gene_body_coverage df =
  (v5 <- select_sum df five_prime ;;
   vm <- select_sum (pd.setitem df "gene_body_five_prime" v5) middle ;;
   v3 <- select_sum
           (pd.setitem (pd.setitem df "gene_body_five_prime" v5)
              "gene_body_middle" vm) three_prime ;;
   pd.drop
     (pd.setitem
        (pd.setitem (pd.setitem df "gene_body_five_prime" v5)
           "gene_body_middle" vm) "gene_body_three_prime" v3) cols).
Proof.
  exact (assign_chain five_prime middle three_prime cols
           "gene_body_five_prime" "gene_body_middle" "gene_body_three_prime" df).
Qed.

Lemma drop_ok (df : DataFrame) (labels : list string) :
  (forall l, In l labels -> In l (names df)) ->
  pd.drop df labels =
  OK (mkDF (index df) (filter (fun c => negb (mem (fst c) labels)) (columns df))).
Proof.
  intros H. apply missing_nil in H. unfold pd.drop.
  change (filter (fun l => negb (mem l (names df))) labels)
    with (missing_from (names df) labels).
  now rewrite H.
Qed.

Lemma drop_inv (df out : DataFrame) (labels : list string) :
  pd.drop df labels = OK out ->
  out = mkDF (index df) (filter (fun c => negb (mem (fst c) labels)) (columns df)).
Proof.
  unfold pd.drop.
  destruct (filter (fun l => negb (mem l (names df))) labels); intros H;
    now inversion H.
Qed.

Lemma tertile5 : In "gene_body_five_prime" tertiles.
Proof. simpl. tauto. Qed.

Lemma tertilem : In "gene_body_middle" tertiles.
Proof. simpl. tauto. Qed.

Lemma tertile3 : In "gene_body_three_prime" tertiles.
Proof. simpl. tauto. Qed.

Create HintDb tert.

#[local] Hint Resolve tertile5 tertilem tertile3 In_five_prime In_middle
  In_three_prime tertile_not_in : tert.

(** What the reducer returns, when it returns: all the position columns
    were there, and the table is [reduced df]. *)
Lemma aggregate_inv (df out : DataFrame) :
  aggregate_gene_body_coverage df = OK out ->
  (forall l, In l cols -> In l (names df)) /\ out = reduced df.
Proof.
  rewrite aggregate_unfold. intros H.
  destruct (select_sum df five_prime) as [v5|e] eqn:E5; cbn [bind] in H;
    [|discriminate].
  apply select_sum_inv in E5. destruct E5 as [P5 ->].
  set (d1 := pd.setitem df "gene_body_five_prime" (sums df five_prime)) in *.
  destruct (select_sum d1 middle) as [vm|e] eqn:Em; cbn [bind] in H;
    [|discriminate].
  apply select_sum_inv in Em. destruct Em as [Pm ->].
  assert (sums d1 middle = sums df middle) as Sm
    by (apply sums_setitem; eauto with tert).
  rewrite Sm in H.
  set (d2 := pd.setitem d1 "gene_body_middle" (sums df middle)) in *.
  destruct (select_sum d2 three_prime) as [v3|e] eqn:E3; cbn [bind] in H;
    [|discriminate].
  apply select_sum_inv in E3. destruct E3 as [P3 ->].
  assert (sums d2 three_prime = sums df three_prime) as S3.
  { unfold d2. rewrite sums_setitem by eauto with tert.
    apply sums_setitem; eauto with tert. }
  rewrite S3 in H. apply drop_inv in H. split.
  - intros l Hl. rewrite cols_split, !in_app_iff in Hl.
    destruct Hl as [Hl | [Hl | Hl]].
    + now apply P5.
    + apply Pm in Hl as Hn. apply names_setitem in Hn.
      destruct Hn as [-> | Hn]; [|assumption].
      exfalso. exact (tertile_not_in _ _ tertile5 In_middle Hl).
    + apply P3 in Hl as Hn. unfold d2, d1 in Hn.
      rewrite !names_setitem in Hn.
      destruct Hn as [-> | [-> | Hn]]; [| |assumption]; exfalso.
      * exact (tertile_not_in _ _ tertilem In_three_prime Hl).
      * exact (tertile_not_in _ _ tertile5 In_three_prime Hl).
  - rewrite H. unfold reduced, d2, d1. cbv zeta.
    now rewrite !index_setitem.
Qed.

(** The reducer returns as soon as the 101 position columns are there and
    hold numbers or missing values. *)
Lemma aggregate_ok (df : DataFrame) :
  (forall l, In l cols -> In l (names df)) ->
  numeric_on df cols ->
  aggregate_gene_body_coverage df = OK (reduced df).
Proof.
  intros P N. rewrite aggregate_unfold.
  assert (forall labels, (forall l, In l labels -> In l cols) ->
            numeric_on df labels) as Nsub
    by (intros labels Hs c x Hc Hl Hx; apply (N c x); auto).
  rewrite select_sum_ok by eauto with tert. cbn [bind].
  set (d1 := pd.setitem df "gene_body_five_prime" (sums df five_prime)).
  assert (select_sum d1 middle = OK (sums df middle)) as Em.
  { rewrite <- (sums_setitem df "gene_body_five_prime" (sums df five_prime))
      by eauto with tert.
    apply select_sum_ok.
    - intros l Hl. apply names_setitem. right. eauto with tert.
    - apply numeric_on_setitem; eauto with tert. }
  rewrite Em. cbn [bind].
  set (d2 := pd.setitem d1 "gene_body_middle" (sums df middle)).
  assert (select_sum d2 three_prime = OK (sums df three_prime)) as E3.
  { rewrite <- (sums_setitem df "gene_body_five_prime" (sums df five_prime))
      by eauto with tert.
    fold d1.
    rewrite <- (sums_setitem d1 "gene_body_middle" (sums df middle))
      by eauto with tert.
    apply select_sum_ok.
    - intros l Hl. unfold d2, d1. rewrite !names_setitem. right. right.
      eauto with tert.
    - unfold d2, d1. repeat apply numeric_on_setitem; eauto with tert. }
  rewrite E3. cbn [bind]. rewrite drop_ok.
  - unfold reduced, d2, d1. cbv zeta. now rewrite !index_setitem.
  - intros l Hl. rewrite !names_setitem. right. unfold d2, d1.
    rewrite !names_setitem. right. right. now apply P.
Qed.

(** ** The reduced table *)

Lemma index_reduced (df : DataFrame) : index (reduced df) = index df.
Proof. reflexivity. Qed.

Lemma named_all_lookup (df : DataFrame) (n : string) (v : list cell) :
  named_all df n v -> lookup_col df n = Some v.
Proof.
  intros [Hin Hall]. unfold lookup_col.
  destruct (find (fun c => String.eqb (fst c) n) (columns df)) as [c|] eqn:E.
  - apply find_some in E. destruct E as [Hc He]. apply String.eqb_eq in He.
    now rewrite (Hall c Hc He).
  - exfalso. apply in_map_iff in Hin. destruct Hin as [c [Hc Hin]].
    apply (find_none _ _ E) in Hin. rewrite Hc, String.eqb_refl in Hin.
    discriminate.
Qed.

Lemma named_all_setitem_same (df : DataFrame) (n : string) (v : list cell) :
  named_all (pd.setitem df n v) n v.
Proof.
  split.
  - apply names_setitem. now left.
  - intros c Hc Hn. now rewrite (filter_setitem_same df n v c Hc Hn).
Qed.

Lemma In_setitem_other (df : DataFrame) (m : string) (w : list cell)
    (c : string * list cell) :
  fst c <> m -> (In c (columns (pd.setitem df m w)) <-> In c (columns df)).
Proof.
  intros Hn.
  pose proof (filter_setitem_other df m w (fst c) Hn) as E.
  split; intros H.
  - assert (In c (filter (fun c' => String.eqb (fst c') (fst c))
                    (columns (pd.setitem df m w)))) as Hf
      by (apply filter_In; split; [assumption | apply String.eqb_refl]).
    rewrite E in Hf. now apply filter_In in Hf.
  - assert (In c (filter (fun c' => String.eqb (fst c') (fst c)) (columns df)))
      as Hf by (apply filter_In; split; [assumption | apply String.eqb_refl]).
    rewrite <- E in Hf. now apply filter_In in Hf.
Qed.

Lemma named_all_setitem_other (df : DataFrame) (n m : string) (v w : list cell) :
  n <> m -> named_all df n v -> named_all (pd.setitem df m w) n v.
Proof.
  intros Hnm [Hin Hall]. split.
  - apply names_setitem. now right.
  - intros c Hc Hn. apply (Hall c); [|assumption].
    apply (In_setitem_other df m w c); [congruence | assumption].
Qed.

Lemma named_all_drop (idx : list string) (df : DataFrame) (labels : list string)
    (n : string) (v : list cell) :
  ~ In n labels -> named_all df n v ->
  named_all
    (mkDF idx (filter (fun c => negb (mem (fst c) labels)) (columns df))) n v.
Proof.
  intros Hn [Hin Hall]. split.
  - unfold names in *. simpl. apply in_map_iff in Hin.
    destruct Hin as [c [Hc Hin]]. apply in_map_iff. exists c.
    split; [assumption|]. apply filter_In. split; [assumption|].
    rewrite Hc. apply negb_true_iff. now apply mem_false.
  - simpl. intros c Hc. apply filter_In in Hc. now apply Hall.
Qed.

Lemma reduced_five_prime (df : DataFrame) :
  named_all (reduced df) "gene_body_five_prime" (sums df five_prime).
Proof.
  unfold reduced. cbv zeta. apply named_all_drop.
  - apply tertile_not_pos, tertile5.
  - apply named_all_setitem_other; [discriminate|].
    apply named_all_setitem_other; [discriminate|].
    apply named_all_setitem_same.
Qed.

Lemma reduced_middle (df : DataFrame) :
  named_all (reduced df) "gene_body_middle" (sums df middle).
Proof.
  unfold reduced. cbv zeta. apply named_all_drop.
  - apply tertile_not_pos, tertilem.
  - apply named_all_setitem_other; [discriminate|].
    apply named_all_setitem_same.
Qed.

Lemma reduced_three_prime (df : DataFrame) :
  named_all (reduced df) "gene_body_three_prime" (sums df three_prime).
Proof.
  unfold reduced. cbv zeta. apply named_all_drop.
  - apply tertile_not_pos, tertile3.
  - apply named_all_setitem_same.
Qed.

Lemma nth_sums (df : DataFrame) (labels : list string) (r : nat) :
  r < nrows df ->
  nth r (sums df labels) NaN = Num (total (cells_at df labels r)).
Proof.
  intros Hr. unfold sums.
  rewrite (nth_indep _ NaN (Num (total (cells_at df labels 0))))
    by (rewrite length_map, length_seq; assumption).
  rewrite (map_nth (fun i => Num (total (cells_at df labels i)))).
  now rewrite seq_nth.
Qed.


Lemma total_repeat_NaN (n : nat) : total (repeat NaN n) = 0%Q.
Proof. unfold total. induction n; simpl; auto. Qed.


Lemma all_equal_repeat {A : Type} (x : A) (l : list A) :
  (forall y, In y l -> y = x) -> l = repeat x (List.length l).
Proof.
  induction l as [|a t IH]; simpl; intros H; [reflexivity|].
  rewrite (H a (or_introl eq_refl)) at 1. f_equal. apply IH.
  intros y Hy. apply H. now right.
Qed.

Lemma names_reduced (df : DataFrame) (n : string) :
  In n (names (reduced df)) <->
  ~ In n cols /\ (In n tertiles \/ In n (names df)).
Proof.
  unfold reduced. cbv zeta. unfold names at 1. simpl.
  rewrite in_map_iff. split.
  - intros [c [Hc Hin]]. apply filter_In in Hin. destruct Hin as [Hin Hp].
    apply negb_true_iff, mem_false in Hp. subst n. split; [assumption|].
    apply (in_map fst) in Hin. fold (names (pd.setitem
      (pd.setitem (pd.setitem df "gene_body_five_prime" (sums df five_prime))
         "gene_body_middle" (sums df middle))
      "gene_body_three_prime" (sums df three_prime))) in Hin.
    rewrite !names_setitem in Hin. unfold tertiles. simpl.
    intuition auto.
  - intros [Hn Hin].
    assert (In n (names (pd.setitem
      (pd.setitem (pd.setitem df "gene_body_five_prime" (sums df five_prime))
         "gene_body_middle" (sums df middle))
      "gene_body_three_prime" (sums df three_prime)))) as H.
    { rewrite !names_setitem. unfold tertiles in Hin. simpl in Hin.
      intuition auto. }
    apply in_map_iff in H. destruct H as [c [Hc H]]. exists c.
    split; [assumption|]. apply filter_In. split; [assumption|].
    rewrite Hc. now apply negb_true_iff, mem_false.
Qed.

Lemma present_cols (df : DataFrame) :
  (forall i, i < 101 -> In (pos i) (names df)) ->
  forall l, In l cols -> In l (names df).
Proof.
  intros H l Hl. apply In_cols in Hl. destruct Hl as [i [Hi ->]]. now apply H.
Qed.

(** * Theorems: the coverage reducer *)


(** *** The hypotheses, checked on a concrete table *)

Lemma presentb_spec (df : DataFrame) :
  presentb df cols = true -> forall i, i < 101 -> In (pos i) (names df).
Proof.
  unfold presentb. rewrite forallb_forall. intros H i Hi.
  apply mem_In, H, In_cols. now exists i.
Qed.

Lemma numeric_onb_spec (df : DataFrame) (labels : list string) :
  numeric_onb df labels = true -> numeric_on df labels.
Proof.
  unfold numeric_onb, numeric_on. rewrite forallb_forall.
  intros H c x Hc Hl Hx. specialize (H c Hc).
  apply mem_In in Hl. rewrite Hl in H. simpl in H.
  rewrite forallb_forall in H. specialize (H x Hx).
  now apply negb_true_iff in H.
Qed.


(** C10. When the 101 position columns are all there and a row holds a
    missing value in every one of them, the three tertile values of that row
    are the number 0, not a missing value. *)
Theorem coverage_all_missing_is_zero (df : DataFrame) (r : nat) :
  (forall i, i < 101 -> In (pos i) (names df)) ->
  numeric_on df (pos_range 0 101) ->
  r < nrows df ->
  (forall c, In c (columns df) -> In (fst c) (pos_range 0 101) ->
             nth r (snd c) NaN = NaN) ->
  exists out v5 vm v3,
    aggregate_gene_body_coverage df = OK out /\
    lookup_col out "gene_body_five_prime" = Some v5 /\
    lookup_col out "gene_body_middle" = Some vm /\
    lookup_col out "gene_body_three_prime" = Some v3 /\
    nth r v5 NaN = Num 0%Q /\ nth r vm NaN = Num 0%Q /\ nth r v3 NaN = Num 0%Q.
Proof.
  intros Hp Hn Hr Hnan. rewrite <- cols_range in Hn, Hnan.
  pose proof (present_cols df Hp) as P.
  exists (reduced df), (sums df five_prime), (sums df middle),
    (sums df three_prime).
  split; [now apply aggregate_ok|].
  split; [apply named_all_lookup, reduced_five_prime|].
  split; [apply named_all_lookup, reduced_middle|].
  split; [apply named_all_lookup, reduced_three_prime|].
  rewrite !nth_sums by assumption.
  assert (forall labels, (forall l, In l labels -> In l cols) ->
            total (cells_at df labels r) = 0%Q) as Hz.
  { intros labels Hs.
    rewrite (all_equal_repeat NaN (cells_at df labels r)).
    - apply total_repeat_NaN.
    - intros y Hy. apply cells_at_In in Hy. destruct Hy as [c [Hc [Hl ->]]].
      apply Hnan; auto. }
  rewrite (Hz five_prime In_five_prime), (Hz middle In_middle),
    (Hz three_prime In_three_prime).
  repeat split.
Qed.

Lemma coverage_all_missing_is_zero_witness :
  exists out v5 vm v3,
    aggregate_gene_body_coverage coverage_example = OK out /\
    lookup_col out "gene_body_five_prime" = Some v5 /\
    lookup_col out "gene_body_middle" = Some vm /\
    lookup_col out "gene_body_three_prime" = Some v3 /\
    nth 1 v5 NaN = Num 0%Q /\ nth 1 vm NaN = Num 0%Q /\ nth 1 v3 NaN = Num 0%Q.
Proof.
  apply (coverage_all_missing_is_zero coverage_example 1).
  - apply presentb_spec. vm_compute. reflexivity.
  - apply numeric_onb_spec. vm_compute. reflexivity.
  - vm_compute. lia.
  - intros c Hc Hl. vm_compute in Hc.
    destruct Hc as [<- | Hc];
      [apply mem_In in Hl; vm_compute in Hl; discriminate|].
    repeat (destruct Hc as [<- | Hc]; [reflexivity|]). contradiction.
Defined.

(** C3. The reducer applied to a table it has returned fails: the position
    columns are gone, and the first selection raises a KeyError that lists
    the labels pos_0 .. pos_32. *)
Theorem coverage_reapply_fails (df out : DataFrame) :
  aggregate_gene_body_coverage df = OK out ->
  aggregate_gene_body_coverage out = Err (KeyError (pos_range 0 33)).
Proof.
  intros H. apply aggregate_inv in H. destruct H as [_ ->].
  rewrite aggregate_unfold.
  assert (forall l, In l five_prime -> ~ In l (names (reduced df))) as Hno.
  { intros l Hl Hin. apply names_reduced in Hin. destruct Hin as [Hn _].
    apply Hn. now apply In_five_prime. }
  assert (In (pos 0) five_prime) as H0.
  { rewrite five_prime_range. unfold pos_range. apply in_map, in_seq. lia. }
  rewrite (select_sum_missing (reduced df) five_prime (pos 0) H0 (Hno _ H0)).
  cbn [bind]. rewrite missing_all by assumption.
  now rewrite five_prime_range.
Qed.

Lemma coverage_reapply_fails_witness :
  aggregate_gene_body_coverage coverage_example_reduced
  = Err (KeyError (pos_range 0 33)).
Proof.
  apply (coverage_reapply_fails coverage_example).
  vm_compute. reflexivity.
Defined.

(** *** A table that lacks position columns *)

Lemma select_sum_numeric_cases (x : DataFrame) (labels : list string) :
  numeric_on x labels ->
  (select_sum x labels = OK (sums x labels) /\
   forall l, In l labels -> In l (names x))
  \/
  (missing_from (names x) labels <> [] /\
   select_sum x labels = Err (KeyError (missing_from (names x) labels))).
Proof.
  intros Hn. destruct (getitem_cases x labels) as [[Hp E] | [Hm E]].
  - left. split; [now apply select_sum_ok | assumption].
  - right. split; [assumption|]. unfold select_sum. now rewrite E.
Qed.

Lemma numeric_on_sub (df : DataFrame) (labels sub : list string) :
  (forall l, In l sub -> In l labels) -> numeric_on df labels -> numeric_on df sub.
Proof. intros Hs Hn c x Hc Hl Hx. apply (Hn c x); auto. Qed.

(** With numeric position columns, the only error of the reducer is a
    KeyError on position labels the table lacks. *)
Lemma aggregate_error_numeric (df : DataFrame) (e : error) :
  numeric_on df cols ->
  aggregate_gene_body_coverage df = Err e ->
  exists missing, e = KeyError missing /\ missing <> [] /\
    forall l, In l missing -> In l cols /\ ~ In l (names df).
Proof.
  intros Hn H. rewrite aggregate_unfold in H.
  destruct (select_sum_numeric_cases df five_prime
              (numeric_on_sub df cols five_prime In_five_prime Hn))
    as [[E5 P5] | [M5 E5]]; rewrite E5 in H; cbn [bind] in H.
  2:{ inversion H. eexists. split; [reflexivity|]. split; [assumption|].
      intros l Hl. apply missing_In in Hl. destruct Hl as [Hl Hno].
      split; [now apply In_five_prime | assumption]. }
  set (d1 := pd.setitem df "gene_body_five_prime" (sums df five_prime)) in *.
  assert (numeric_on d1 cols) as Hn1
    by (apply numeric_on_setitem; [apply tertile_not_pos, tertile5 | assumption]).
  destruct (select_sum_numeric_cases d1 middle
              (numeric_on_sub d1 cols middle In_middle Hn1))
    as [[Em Pm] | [Mm Em]]; rewrite Em in H; cbn [bind] in H.
  2:{ inversion H. eexists. split; [reflexivity|]. split; [assumption|].
      intros l Hl. apply missing_In in Hl. destruct Hl as [Hl Hno].
      split; [now apply In_middle|]. intros Hin. apply Hno.
      apply names_setitem. now right. }
  set (d2 := pd.setitem d1 "gene_body_middle" (sums d1 middle)) in *.
  assert (numeric_on d2 cols) as Hn2
    by (apply numeric_on_setitem; [apply tertile_not_pos, tertilem | assumption]).
  destruct (select_sum_numeric_cases d2 three_prime
              (numeric_on_sub d2 cols three_prime In_three_prime Hn2))
    as [[E3 P3] | [M3 E3]]; rewrite E3 in H; cbn [bind] in H.
  2:{ inversion H. eexists. split; [reflexivity|]. split; [assumption|].
      intros l Hl. apply missing_In in Hl. destruct Hl as [Hl Hno].
      split; [now apply In_three_prime|]. intros Hin. apply Hno.
      unfold d2, d1. rewrite !names_setitem. auto. }
  exfalso. rewrite drop_ok in H; [discriminate|].
  intros l Hl. rewrite names_setitem. right.
  rewrite cols_split, !in_app_iff in Hl. destruct Hl as [Hl | [Hl | Hl]].
  - unfold d2, d1. rewrite !names_setitem. right. right. now apply P5.
  - unfold d2. rewrite names_setitem. right. now apply Pm.
  - now apply P3.
Qed.

(** C2, as the code has it.  When one of the position columns pos_0 ..
    pos_100 is not in the table, the reducer fails and returns no table;
    with numeric position columns the error is a KeyError that lists
    position labels the table lacks. *)
Theorem coverage_missing_column_fails (df : DataFrame) (i : nat) :
  i < 101 -> ~ In (pos i) (names df) ->
  exists e,
    aggregate_gene_body_coverage df = Err e /\
    (numeric_on df (pos_range 0 101) ->
     exists missing, e = KeyError missing /\ missing <> [] /\
       forall l, In l missing -> In l (pos_range 0 101) /\ ~ In l (names df)).
Proof.
  intros Hi Hno.
  destruct (aggregate_gene_body_coverage df) as [out|e] eqn:E.
  - exfalso. apply aggregate_inv in E. destruct E as [P _].
    apply Hno, P, In_cols. now exists i.
  - exists e. split; [reflexivity|]. rewrite <- cols_range.
    intros Hn. now apply aggregate_error_numeric.
Qed.

Lemma coverage_missing_column_fails_witness :
  exists e,
    aggregate_gene_body_coverage coverage_partial = Err e /\
    (numeric_on coverage_partial (pos_range 0 101) ->
     exists missing, e = KeyError missing /\ missing <> [] /\
       forall l, In l missing ->
         In l (pos_range 0 101) /\ ~ In l (names coverage_partial)).
Proof.
  apply (coverage_missing_column_fails coverage_partial 100).
  - lia.
  - apply mem_false. vm_compute. reflexivity.
Defined.

(** C2 as the claim states it fails: with pos_0 .. pos_99 present and
    pos_100 absent the reducer returns no table but a KeyError. *)
Lemma coverage_partial_counterexample :
  (exists i, i < 101 /\ In (pos i) (names coverage_partial)) /\
  (exists i, i < 101 /\ ~ In (pos i) (names coverage_partial)) /\
  aggregate_gene_body_coverage coverage_partial = Err (KeyError ["pos_100"]) /\
  ~ exists out, aggregate_gene_body_coverage coverage_partial = OK out.
Proof.
  assert (aggregate_gene_body_coverage coverage_partial
          = Err (KeyError ["pos_100"])) as E by (vm_compute; reflexivity).
  split; [|split; [|split]].
  - exists 0. split; [lia|]. apply mem_In. vm_compute. reflexivity.
  - exists 100. split; [lia|]. apply mem_false. vm_compute. reflexivity.
  - exact E.
  - intros [out H]. rewrite E in H. discriminate.
Qed.

(** *** What the reducer leaves alone *)

Lemma filter_named_drop (cs : list (string * list cell)) (labels : list string)
    (n : string) :
  ~ In n labels ->
  filter (fun c => String.eqb (fst c) n)
    (filter (fun c => negb (mem (fst c) labels)) cs)
  = filter (fun c => String.eqb (fst c) n) cs.
Proof.
  intros Hn. induction cs as [|c t IH]; simpl; [reflexivity|].
  destruct (String.eqb (fst c) n) eqn:E.
  - apply String.eqb_eq in E.
    assert (mem (fst c) labels = false) as -> by (apply mem_false; congruence).
    simpl. apply String.eqb_eq in E. rewrite E. now rewrite IH.
  - destruct (negb (mem (fst c) labels)); simpl; [rewrite E|]; assumption.
Qed.




(** * Theorems: the feature catalog *)

Lemma unique_NoDup (l : list string) : pd.unique l = true <-> NoDup l.
Proof.
  induction l as [|x t IH]; simpl.
  - split; [constructor | reflexivity].
  - rewrite andb_true_iff, negb_true_iff, mem_false, IH. split.
    + intros [H1 H2]. now constructor.
    + intros H. inversion H. auto.
Qed.

Lemma NoDup_map_injective_on {A B : Type} (f : A -> B) (l : list A) :
  NoDup (map f l) ->
  forall a b, In a l -> In b l -> f a = f b -> a = b.
Proof.
  induction l as [|x t IH]; simpl; intros H a b Ha Hb E; [contradiction|].
  inversion H as [|? ? Hx Ht]. subst.
  destruct Ha as [<- | Ha], Hb as [<- | Hb].
  - reflexivity.
  - exfalso. apply Hx. rewrite E. now apply in_map.
  - exfalso. apply Hx. rewrite <- E. now apply in_map.
  - now apply IH.
Qed.

Lemma NoDup_map_on {A B : Type} (f : A -> B) (dom l : list A) :
  (forall a b, In a dom -> In b dom -> f a = f b -> a = b) ->
  (forall a, In a l -> In a dom) ->
  NoDup l -> NoDup (map f l).
Proof.
  intros Hinj. induction l as [|x t IH]; simpl; intros Hs H; [constructor|].
  inversion H as [|? ? Hx Ht]. subst. constructor.
  - intros Hin. apply in_map_iff in Hin. destruct Hin as [y [Hy Hin]].
    apply Hinj in Hy; auto. now subst.
  - apply IH; auto.
Qed.

Lemma names_rename (df : DataFrame) (mapping : list (string * string)) :
  names (pd.rename df mapping) = map (pd.renamed mapping) (names df).
Proof. unfold names, pd.rename. simpl. now rewrite !map_map. Qed.

(** C8. The renaming of the catalog is a function from internal names to
    public names ([pd.renamed FEATURE_RENAME]: the rename map's entry, or
    the name itself when there is none) that is one-to-one on the internal
    names of the catalog: the catalog names are distinct, so are their
    public names, and a table whose columns are distinct catalog names has
    distinct column names after renaming. *)
Theorem rename_one_to_one_on_catalog :
  NoDup (keys FEATURE_AGG) /\
  (forall k, In k (keys FEATURE_RENAME) -> In k (keys FEATURE_AGG)) /\
  (forall k, pd.get FEATURE_RENAME k = None -> pd.renamed FEATURE_RENAME k = k) /\
  (forall a b, In a (keys FEATURE_AGG) -> In b (keys FEATURE_AGG) ->
     pd.renamed FEATURE_RENAME a = pd.renamed FEATURE_RENAME b -> a = b) /\
  NoDup (map (pd.renamed FEATURE_RENAME) (keys FEATURE_AGG)) /\
  (forall df, NoDup (names df) ->
     (forall n, In n (names df) -> In n (keys FEATURE_AGG)) ->
     NoDup (names (pd.rename df FEATURE_RENAME))).
Proof.
  assert (NoDup (map (pd.renamed FEATURE_RENAME) (keys FEATURE_AGG))) as Hnd
    by (apply unique_NoDup; vm_compute; reflexivity).
  pose proof (NoDup_map_injective_on _ _ Hnd) as Hinj.
  split; [apply unique_NoDup; vm_compute; reflexivity|].
  split.
  { intros k Hk.
    assert (forallb (fun k => mem k (keys FEATURE_AGG)) (keys FEATURE_RENAME)
            = true) as F by (vm_compute; reflexivity).
    rewrite forallb_forall in F. now apply mem_In, F. }
  split; [intros k Hk; unfold pd.renamed; now rewrite Hk|].
  split; [exact Hinj|]. split; [exact Hnd|].
  intros df Hd Hs. rewrite names_rename.
  now apply (NoDup_map_on _ (keys FEATURE_AGG)).
Qed.

Lemma rename_one_to_one_on_catalog_witness :
  NoDup (names (pd.rename catalog_frame FEATURE_RENAME)) /\
  pd.renamed FEATURE_RENAME "num_reads" <> pd.renamed FEATURE_RENAME "too_short".
Proof.
  destruct rename_one_to_one_on_catalog as (_ & _ & _ & Hinj & _ & Hdf).
  split.
  - apply Hdf.
    + apply unique_NoDup. vm_compute. reflexivity.
    + intros n Hn. exact Hn.
  - intros E. apply Hinj in E; [discriminate | |];
      apply mem_In; vm_compute; reflexivity.
Defined.

(** * Lemmas: the source loader *)

Lemma mapM_In {A B : Type} (f : A -> result B) (l : list A) (bs : list B) :
  mapM f l = OK bs -> forall b, In b bs -> exists a, In a l /\ f a = OK b.
Proof.
  revert bs. induction l as [|a t IH]; simpl; intros bs H b Hb.
  - inversion H. subst. contradiction.
  - destruct (f a) as [b0|e] eqn:Ea; simpl in H; [|discriminate].
    destruct (mapM f t) as [bs'|e] eqn:Et; simpl in H; [|discriminate].
    inversion H. subst. destruct Hb as [<- | Hb].
    + exists a. auto.
    + destruct (IH bs' eq_refl b Hb) as [a' [Ha' Hf]]. exists a'. auto.
Qed.

Lemma dedup_from_In (seen l : list string) (x : string) :
  In x (pd.dedup_from seen l) <-> In x l /\ ~ In x seen.
Proof.
  revert seen. induction l as [|a t IH]; simpl; intros seen; [tauto|].
  destruct (mem a seen) eqn:E.
  - apply mem_In in E. rewrite IH. split.
    + tauto.
    + intros [[<- | H] Hs]; [contradiction | tauto].
  - apply mem_false in E. simpl. rewrite IH. simpl. split.
    + intros [<- | [H Hs]]; [tauto|]. split; [tauto|]. tauto.
    + intros [[<- | H] Hs]; [now left|].
      destruct (string_dec a x) as [<- | Hne]; [now left|]. right. tauto.
Qed.

Lemma dedup_In (l : list string) (x : string) : In x (pd.dedup l) <-> In x l.
Proof. unfold pd.dedup. rewrite dedup_from_In. simpl. tauto. Qed.

Lemma list_eqb_eq (a b : list string) : pd.list_eqb a b = true <-> a = b.
Proof.
  unfold pd.list_eqb. destruct (list_eq_dec string_dec a b); split; congruence.
Qed.

Lemma position_None (r : string) (idx : list string) :
  ~ In r idx -> pd.position r idx = None.
Proof.
  induction idx as [|x t IH]; simpl; intros H; [reflexivity|].
  destruct (String.eqb x r) eqn:E.
  - apply String.eqb_eq in E. tauto.
  - rewrite IH by tauto. reflexivity.
Qed.

(** A row label of the concatenation is a row label of one of the frames. *)
Lemma concat_index (dfs : list DataFrame) (d : DataFrame) (r : string) :
  pd.concat_axis1 dfs = OK d -> In r (index d) ->
  exists df, In df dfs /\ In r (index df).
Proof.
  unfold pd.concat_axis1. destruct dfs as [|d0 t]; [discriminate|].
  destruct (forallb (fun d1 => pd.list_eqb (index d1) (index d0)) (d0 :: t)).
  - intros H Hr. inversion H. subst. exists d0. split; [now left | assumption].
  - destruct (forallb (fun d1 => pd.unique (index d1)) (d0 :: t));
      [|discriminate].
    intros H Hr. inversion H. subst.
    match type of Hr with
    | In r (index (mkDF ?i ?c)) => change (In r i) in Hr
    end.
    apply (proj1 (dedup_In _ _)) in Hr.
    apply in_app_iff in Hr. destruct Hr as [Hr | Hr].
    + exists d0. split; [now left | assumption].
    + apply (proj1 (in_flat_map _ _ _)) in Hr. destruct Hr as [df [Hdf Hr]].
      exists df. split; [now right | assumption].
Qed.

(** * Lemmas: the sample aggregator *)



Lemma mapM_map_fst {A B C : Type} (f : A * B -> result (A * C))
    (l : list (A * B)) (bs : list (A * C)) :
  (forall a b, f a = OK b -> fst b = fst a) ->
  mapM f l = OK bs -> map fst bs = map fst l.
Proof.
  intros Hf. revert bs. induction l as [|x t IH]; simpl; intros bs H.
  - now inversion H.
  - destruct (f x) as [b0|e] eqn:Ex; simpl in H; [|discriminate].
    destruct (mapM f t) as [bs'|e] eqn:Et; simpl in H; [|discriminate].
    inversion H. simpl. f_equal; [now apply Hf | now apply IH].
Qed.

Lemma lookup_col_NoDup (df : DataFrame) (n : string) (v : list cell) :
  NoDup (names df) -> In (n, v) (columns df) -> lookup_col df n = Some v.
Proof.
  unfold names, lookup_col. induction (columns df) as [|c t IH]; simpl;
    intros Hnd Hin; [contradiction|].
  inversion Hnd as [|? ? Hc Ht]. subst.
  destruct Hin as [-> | Hin]; simpl.
  - now rewrite String.eqb_refl.
  - destruct (String.eqb (fst c) n) eqn:E.
    + exfalso. apply String.eqb_eq in E. apply Hc. rewrite E.
      apply (in_map fst) in Hin. exact Hin.
    + now apply IH.
Qed.

Lemma insert_sorted_length (x : string) (l : list string) :
  List.length (pd.insert_sorted x l) = S (List.length l).
Proof.
  induction l as [|y t IH]; simpl; [reflexivity|].
  destruct (String.leb x y); simpl; [reflexivity | now rewrite IH].
Qed.

Lemma sort_length (l : list string) : List.length (pd.sort l) = List.length l.
Proof.
  unfold pd.sort. induction l as [|x t IH]; simpl; [reflexivity|].
  now rewrite insert_sorted_length, IH.
Qed.

(** The parts of a successful [groupby(key).agg(spec)]. *)
Lemma groupby_agg_inv (t g : DataFrame) (key : string)
    (spec : list (string * pd.aggfunc)) :
  pd.groupby_agg t key spec = OK g ->
  exists kc keys cs,
    columns_named t key = [kc] /\
    mapM pd.key_of (map (fun i => nth i (snd kc) NaN) (seq 0 (nrows t)))
    = OK keys /\
    mapM
      (fun e =>
         mapM
           (fun c =>
              vs <- mapM (fun s => pd.reduce (snd e) (pd.group_cells s keys (snd c)))
                      (pd.sort (pd.dedup (pd.present keys))) ;;
              OK (fst e, vs))
           (columns_named t (fst e))) spec = OK cs /\
    g = mkDF (pd.sort (pd.dedup (pd.present keys))) (List.concat cs).
Proof.
  unfold pd.groupby_agg, columns_named. intros H.
  destruct (filter (fun c => String.eqb (fst c) key) (columns t))
    as [|kc [|kc' rest]]; [discriminate| |discriminate].
  destruct (mapM pd.key_of (map (fun i => nth i (snd kc) NaN) (seq 0 (nrows t))))
    as [keys|e] eqn:Ek; cbn [bind] in H; [|discriminate].
  destruct (filter (fun e => negb (mem (fst e) (names t))) spec);
    [|discriminate].
  match type of H with
  | bind ?m _ = _ => destruct m as [cs|e] eqn:Ecs
  end; cbn [bind] in H; [|discriminate].
  inversion H. exists kc, keys, cs. repeat split; auto.
Qed.

(** Every column the catalog names is a column of a table that
    [groupby(key).agg(spec)] accepts. *)
Lemma groupby_agg_present (t g : DataFrame) (key : string)
    (spec : list (string * pd.aggfunc)) :
  pd.groupby_agg t key spec = OK g ->
  forall l, In l (keys spec) -> In l (names t).
Proof.
  unfold pd.groupby_agg. intros H l Hl.
  destruct (filter (fun c => String.eqb (fst c) key) (columns t))
    as [|kc [|kc' rest]]; [discriminate| |discriminate].
  destruct (mapM pd.key_of (map (fun i => nth i (snd kc) NaN) (seq 0 (nrows t))))
    as [ks|e]; cbn [bind] in H; [|discriminate].
  destruct (filter (fun e => negb (mem (fst e) (names t))) spec) eqn:E;
    [|discriminate].
  unfold keys in Hl. apply in_map_iff in Hl. destruct Hl as [e [He Hin]].
  destruct (mem (fst e) (names t)) eqn:Em.
  - apply mem_In in Em. now rewrite <- He.
  - assert (In e (filter (fun e => negb (mem (fst e) (names t))) spec)) as Hf
      by (apply filter_In; split; [assumption | now rewrite Em]).
    rewrite E in Hf. contradiction.
Qed.

Lemma catalog_NoDup : NoDup (keys FEATURE_AGG).
Proof. apply unique_NoDup. vm_compute. reflexivity. Qed.

(** * Theorems: the pipeline *)

Lemma groupby_agg_missing (t : DataFrame) (key c : string)
    (spec : list (string * pd.aggfunc)) :
  In c (keys spec) -> ~ In c (names t) ->
  exists e, pd.groupby_agg t key spec = Err e.
Proof.
  intros Hc Hno. unfold pd.groupby_agg.
  destruct (filter (fun c0 => String.eqb (fst c0) key) (columns t))
    as [|kc [|kc' rest]]; try (eexists; reflexivity).
  destruct (mapM pd.key_of (map (fun i => nth i (snd kc) NaN) (seq 0 (nrows t))))
    as [ks|e]; cbn [bind]; [|eexists; reflexivity].
  destruct (filter (fun e => negb (mem (fst e) (names t))) spec) as [|m ms] eqn:E;
    [|eexists; reflexivity].
  exfalso. unfold keys in Hc. apply in_map_iff in Hc.
  destruct Hc as [e [He Hin]].
  assert (In e (filter (fun e => negb (mem (fst e) (names t))) spec)) as Hf.
  { apply filter_In. split; [assumption|]. rewrite He.
    now apply negb_true_iff, mem_false. }
  rewrite E in Hf. contradiction.
Qed.

(** C9. When a catalog column is not in the joined and reduced table, the
    program fails and the files are as before; more generally, whenever the
    program fails no file is written, and when it succeeds the one file
    written is features.parquet, holding the feature table. *)
Theorem all_or_nothing (input : string) (fs : FileSystem) :
  (forall srr_df done_srrs t c,
     read_manifest fs input = OK srr_df ->
     read_done_srrs fs = OK done_srrs ->
     joined_table fs srr_df done_srrs = OK t ->
     In c (keys FEATURE_AGG) -> ~ In c (names t) ->
     exists e, build_features input fs = (Err e, fs)) /\
  (forall e fs', build_features input fs = (Err e, fs') -> fs' = fs) /\
  (forall fs', build_features input fs = (OK tt, fs') ->
     exists df,
       feature_table fs input = OK df /\
       fs' = mkFS (text_files fs)
               (fun p => if String.eqb p "features.parquet" then Some df
                         else parquet_files fs p)).
Proof.
  split; [|split].
  - intros srr_df done_srrs t c Hm Hd Ht Hc Hno.
    unfold build_features, feature_table. rewrite Hm, Hd. cbn [bind].
    destruct (Nat.eqb (List.length (columns srr_df)) 2); rewrite Ht; cbn [bind].
    + destruct (groupby_agg_missing t "srx" c FEATURE_AGG Hc Hno) as [e ->].
      cbn [bind]. now exists e.
    + unfold pd.loc_columns. rewrite (getitem_err t (keys FEATURE_AGG) c Hc Hno).
      cbn [bind]. eexists. reflexivity.
  - intros e fs'. unfold build_features.
    destruct (feature_table fs input) as [df|e0]; [|intros H; now inversion H].
    unfold to_parquet. destruct (pd.unique (names df)); intros H;
      now inversion H.
  - intros fs'. unfold build_features.
    destruct (feature_table fs input) as [df|e0]; [|discriminate].
    unfold to_parquet. destruct (pd.unique (names df)); [|discriminate].
    intros H. inversion H. now exists df.
Qed.

Lemma all_or_nothing_witness :
  exists e, build_features "manifest.tsv" scenario_broken = (Err e, scenario_broken).
Proof.
  eapply (proj1 (all_or_nothing "manifest.tsv" scenario_broken))
    with (c := "percent_duplication").
  - vm_compute. reflexivity.
  - vm_compute. reflexivity.
  - vm_compute. reflexivity.
  - apply mem_In. vm_compute. reflexivity.
  - apply mem_false. vm_compute. reflexivity.
Defined.

(** ** Rows of the feature table *)

Lemma positions_from_spec (a : nat) (r : string) (idx : list string) (j : nat) :
  In j (map fst (filter (fun p => String.eqb (snd p) r)
                   (combine (seq a (List.length idx)) idx)))
  <-> a <= j /\ nth_error idx (j - a) = Some r.
Proof.
  revert a. induction idx as [|x t IH]; simpl; intros a.
  - split; [contradiction|]. intros [_ H]. destruct (j - a); discriminate.
  - destruct (String.eqb x r) eqn:E; simpl; rewrite IH.
    + apply String.eqb_eq in E. subst x. split.
      * intros [<- | [Hle H]].
        -- split; [lia|]. now rewrite Nat.sub_diag.
        -- split; [lia|]. replace (j - a) with (S (j - S a)) by lia. exact H.
      * intros [Hle H]. destruct (j - a) as [|k] eqn:Ek.
        -- left. lia.
        -- right. split; [lia|]. replace (j - S a) with k by lia. exact H.
    + apply String.eqb_neq in E. split.
      * intros [Hle H]. split; [lia|].
        replace (j - a) with (S (j - S a)) by lia. exact H.
      * intros [Hle H]. destruct (j - a) as [|k] eqn:Ek.
        -- simpl in H. inversion H. contradiction.
        -- split; [lia|]. replace (j - S a) with k by lia. exact H.
Qed.

Lemma positions_spec (r : string) (idx : list string) (j : nat) :
  In j (pd.positions r idx) <-> nth_error idx j = Some r.
Proof.
  unfold pd.positions. rewrite positions_from_spec, Nat.sub_0_r.
  split; [tauto | split; [lia | assumption]].
Qed.

Lemma positions_from_NoDup (a : nat) (r : string) (idx : list string) :
  NoDup idx ->
  List.length (map fst (filter (fun p => String.eqb (snd p) r)
                          (combine (seq a (List.length idx)) idx))) <= 1.
Proof.
  revert a. induction idx as [|x t IH]; simpl; intros a H; [lia|].
  inversion H as [|? ? Hx Ht]. subst.
  destruct (String.eqb x r) eqn:E; simpl; [|now apply IH].
  apply String.eqb_eq in E. subst x.
  destruct (map fst (filter (fun p => String.eqb (snd p) r)
                       (combine (seq (S a) (List.length t)) t))) as [|j js] eqn:Ej;
    [simpl; lia|].
  exfalso. assert (In j (j :: js)) as Hj by now left.
  rewrite <- Ej in Hj. apply positions_from_spec in Hj.
  destruct Hj as [_ Hj]. apply nth_error_In in Hj. contradiction.
Qed.

Lemma positions_NoDup (r : string) (idx : list string) :
  NoDup idx -> List.length (pd.positions r idx) <= 1.
Proof. apply positions_from_NoDup. Qed.

Lemma combine_seq_In (a : nat) (idx : list string) (l : string) :
  In l idx -> exists i, In (i, l) (combine (seq a (List.length idx)) idx).
Proof.
  revert a. induction idx as [|x t IH]; simpl; intros a H; [contradiction|].
  destruct H as [-> | H].
  - exists a. now left.
  - destruct (IH (S a) H) as [i Hi]. exists i. now right.
Qed.

(** The rows of a left join: one per row of the left frame when the right
    index has no repeated label. *)
Lemma join_plan_length (left right : DataFrame) :
  NoDup (index right) ->
  List.length (pd.join_plan left right) = nrows left.
Proof.
  intros Hnd. unfold pd.join_plan, nrows.
  assert (forall a idx,
            List.length
              (flat_map
                 (fun p =>
                    match pd.positions (snd p) (index right) with
                    | [] => [pd.mkJoined (snd p) (fst p) None]
                    | js => map (fun j => pd.mkJoined (snd p) (fst p) (Some j)) js
                    end)
                 (combine (seq a (List.length idx)) idx))
            = List.length idx) as H.
  { intros a idx. revert a. induction idx as [|x t IH]; simpl; intros a;
      [reflexivity|].
    rewrite length_app, IH.
    pose proof (positions_NoDup x (index right) Hnd) as Hp.
    destruct (pd.positions x (index right)) as [|j [|j' js]]; simpl in *; lia. }
  apply H.
Qed.

(** The rows of a left join that have a partner in the right frame. *)
Lemma join_plan_matched (left right : DataFrame) (j : nat) :
  (exists e, In e (pd.join_plan left right) /\ pd.rpos e = Some j) <->
  (exists l, In l (index left) /\ nth_error (index right) j = Some l).
Proof.
  unfold pd.join_plan. split.
  - intros [e [He Hj]]. apply in_flat_map in He. destruct He as [[i l] [Hp He]].
    cbn [fst snd] in He. exists l. split; [now apply in_combine_r in Hp|].
    apply positions_spec.
    destruct (pd.positions l (index right)) as [|j0 js] eqn:Ep.
    + destruct He as [<- | []]. discriminate.
    + apply in_map_iff in He. destruct He as [j1 [<- Hj1]].
      simpl in Hj. inversion Hj. now subst.
  - intros [l [Hl Hj]]. apply positions_spec in Hj.
    destruct (combine_seq_In 0 (index left) l Hl) as [i Hi].
    exists (pd.mkJoined l i (Some j)). split; [|reflexivity].
    apply in_flat_map. exists (i, l). split; [exact Hi|]. cbn [fst snd].
    destruct (pd.positions l (index right)) as [|j0 js] eqn:Ep;
      [contradiction|].
    apply in_map_iff. exists j. auto.
Qed.

Lemma dedup_from_NoDup (seen l : list string) : NoDup (pd.dedup_from seen l).
Proof.
  revert seen. induction l as [|a t IH]; simpl; intros seen; [constructor|].
  destruct (mem a seen); [apply IH|]. constructor; [|apply IH].
  rewrite dedup_from_In. simpl. tauto.
Qed.

Lemma dedup_NoDup (l : list string) : NoDup (pd.dedup l).
Proof. apply dedup_from_NoDup. Qed.

(** Two lists with the same elements have as many distinct elements. *)
Lemma distinct_count (a b : list string) :
  (forall x, In x a <-> In x b) ->
  List.length (pd.dedup a) = List.length (nodup string_dec b).
Proof.
  intros H. apply Nat.le_antisymm; apply NoDup_incl_length.
  - apply dedup_NoDup.
  - intros x Hx. apply nodup_In, H. exact (proj1 (dedup_In _ _) Hx).
  - apply NoDup_nodup.
  - intros x Hx. apply dedup_In, H. exact (proj1 (nodup_In _ _ _) Hx).
Qed.

Lemma map_nth_seq {A : Type} (l : list A) (d : A) :
  map (fun i => nth i l d) (seq 0 (List.length l)) = l.
Proof.
  induction l as [|a t IH]; simpl; [reflexivity|].
  f_equal. rewrite <- seq_shift, map_map. exact IH.
Qed.

Lemma key_of_present (cells : list cell) (ks : list (option string)) (s : string) :
  mapM pd.key_of cells = OK ks -> (In s (pd.present ks) <-> In (Str s) cells).
Proof.
  revert ks. induction cells as [|c t IH]; simpl; intros ks H.
  - inversion H. simpl. tauto.
  - destruct (pd.key_of c) as [k|e] eqn:Ek; simpl in H; [|discriminate].
    destruct (mapM pd.key_of t) as [ks'|e] eqn:Et; simpl in H; [|discriminate].
    inversion H. subst. specialize (IH ks' eq_refl).
    destruct c as [q| |s0]; simpl in Ek; inversion Ek; subst; simpl.
    + rewrite IH. split; [tauto|]. intros [E | E]; [discriminate | assumption].
    + rewrite IH. split.
      * intros [-> | E]; tauto.
      * intros [E | E]; [inversion E; now left | tauto].
Qed.

Lemma filter_none (cs : list (string * list cell)) (n : string) :
  ~ In n (map fst cs) -> filter (fun c => String.eqb (fst c) n) cs = [].
Proof.
  induction cs as [|c t IH]; simpl; intros H; [reflexivity|].
  destruct (String.eqb (fst c) n) eqn:E.
  - apply String.eqb_eq in E. tauto.
  - apply IH. tauto.
Qed.

Lemma reindex_index (d out : DataFrame) (labels : list string) :
  pd.reindex d labels = OK out -> index out = labels.
Proof.
  unfold pd.reindex. destruct (pd.list_eqb (index d) labels) eqn:E.
  - intros H. inversion H. subst. now apply list_eqb_eq.
  - destruct (pd.unique (index d)); intros H; inversion H. reflexivity.
Qed.

Lemma workflow_data_index (fs : FileSystem) (srrs : list string)
    (folders : list (string * string)) (out : DataFrame) :
  workflow_data fs srrs folders = OK out -> index out = srrs.
Proof.
  unfold workflow_data. intros H.
  destruct (mapM (read_parquet fs) (map snd folders)) as [dfs|e];
    cbn [bind] in H; [|discriminate].
  destruct (pd.concat_axis1 dfs) as [d|e]; cbn [bind] in H; [|discriminate].
  now apply reindex_index in H.
Qed.

Lemma join_inv (left right j : DataFrame) :
  pd.join left right = OK j ->
  (forall n, In n (names left) -> ~ In n (names right)) /\
  j = mkDF (map pd.label (pd.join_plan left right))
        (map (fun c => (fst c, map (fun e => nth (pd.lpos e) (snd c) NaN)
                                 (pd.join_plan left right)))
           (columns left)
         ++ map (fun c => (fst c, map (fun e => pd.take (snd c) (pd.rpos e))
                                    (pd.join_plan left right)))
              (columns right)).
Proof.
  unfold pd.join.
  destruct (existsb (fun n => mem n (names right)) (names left)) eqn:E;
    [discriminate|].
  intros H. inversion H. split; [|reflexivity].
  intros n Hn Hr. apply mem_In in Hr.
  assert (existsb (fun n => mem n (names right)) (names left) = true) as Ht
    by (apply existsb_exists; exists n; auto).
  congruence.
Qed.

(** The joined and reduced table: its rows are those of the join of the
    loaded table (whose rows are the completion list) with the manifest, and
    its columns that are neither position nor tertile columns are those of
    the join. *)
Lemma joined_table_inv (fs : FileSystem) (srr_df t : DataFrame)
    (done_srrs : list string) :
  joined_table fs srr_df done_srrs = OK t ->
  exists wd,
    index wd = done_srrs /\
    (forall n, In n (names wd) -> ~ In n (names srr_df)) /\
    index t = map pd.label (pd.join_plan wd srr_df) /\
    forall n, ~ In n cols -> ~ In n tertiles ->
      columns_named t n =
      filter (fun c => String.eqb (fst c) n)
        (map (fun c => (fst c, map (fun e => nth (pd.lpos e) (snd c) NaN)
                                 (pd.join_plan wd srr_df)))
           (columns wd))
      ++ filter (fun c => String.eqb (fst c) n)
           (map (fun c => (fst c, map (fun e => pd.take (snd c) (pd.rpos e))
                                    (pd.join_plan wd srr_df)))
              (columns srr_df)).
Proof.
  unfold joined_table. intros H.
  destruct (workflow_data fs done_srrs feature_dict) as [wd|e] eqn:Ew;
    cbn [bind] in H; [|discriminate].
  destruct (pd.join wd srr_df) as [j|e] eqn:Ej; cbn [bind] in H; [|discriminate].
  apply workflow_data_index in Ew. apply join_inv in Ej.
  destruct Ej as [Hov ->]. apply aggregate_inv in H. destruct H as [_ ->].
  exists wd. split; [exact Ew|]. split; [exact Hov|]. split; [reflexivity|].
  intros n Hn Ht. unfold columns_named, reduced. cbv zeta. cbn [columns index].
  rewrite filter_named_drop by assumption.
  unfold tertiles in Ht. simpl in Ht.
  rewrite !filter_setitem_other by intuition congruence.
  cbn [columns]. apply filter_app.
Qed.

Lemma In_combine_nth_error {A B : Type} (la : list A) (lb : list B) (a : A) (b : B) :
  In (a, b) (combine la lb) <->
  exists j, nth_error la j = Some a /\ nth_error lb j = Some b.
Proof.
  revert lb. induction la as [|x t IH]; simpl; intros lb.
  - split; [contradiction|]. intros [[|j] [H _]]; discriminate.
  - destruct lb as [|y u]; simpl.
    + split; [contradiction|]. intros [[|j] [_ H]]; discriminate.
    + rewrite IH. split.
      * intros [E | [j Hj]].
        -- inversion E. subst. now exists 0.
        -- now exists (S j).
      * intros [[|j] [H1 H2]]; simpl in *.
        -- left. congruence.
        -- right. now exists j.
Qed.

Lemma take_Str (srxs : list string) (p : option nat) (s : string) :
  pd.take (map Str srxs) p = Str s <->
  exists j, p = Some j /\ nth_error srxs j = Some s.
Proof.
  destruct p as [j|]; simpl.
  - split.
    + intros H. exists j. split; [reflexivity|].
      destruct (nth_error srxs j) as [s0|] eqn:E.
      * rewrite (nth_error_nth _ _ _ (map_nth_error Str _ _ E)) in H.
        congruence.
      * apply nth_error_None in E.
        rewrite nth_overflow in H by (rewrite length_map; assumption).
        discriminate.
    + intros [j0 [E H]]. inversion E. subst j0.
      now rewrite (nth_error_nth _ _ _ (map_nth_error Str _ _ H)).
  - split; [discriminate|]. intros [j [E _]]. discriminate.
Qed.

Lemma grouped_rows (fs : FileSystem) (srxs srrs done_srrs : list string)
    (t g : DataFrame) :
  joined_table fs (mkDF srrs [("srx", map Str srxs); ("srr", map Str srrs)])
    done_srrs = OK t ->
  pd.groupby_agg t "srx" FEATURE_AGG = OK g ->
  nrows g =
  List.length
    (nodup string_dec
       (map fst (filter (fun p => mem (snd p) done_srrs) (combine srxs srrs)))).
Proof.
  intros Hj Hg. apply joined_table_inv in Hj.
  destruct Hj as (wd & Hidx & Hov & Hit & Hcols).
  apply groupby_agg_inv in Hg. destruct Hg as (kc & ks & cs & Hk & Hks & _ & ->).
  unfold nrows at 1. cbn [index]. rewrite sort_length.
  set (right := mkDF srrs [("srx", map Str srxs); ("srr", map Str srrs)]) in *.
  set (plan := pd.join_plan wd right) in *.
  assert (kc = ("srx", map (fun e => pd.take (map Str srxs) (pd.rpos e)) plan))
    as ->.
  { rewrite Hcols in Hk.
    - rewrite filter_none in Hk.
      + simpl in Hk. now inversion Hk.
      + rewrite map_map. simpl. fold (names wd). intros Hin.
        apply (Hov _ Hin). simpl. now left.
    - apply mem_false. vm_compute. reflexivity.
    - apply mem_false. vm_compute. reflexivity. }
  cbn [snd] in Hks.
  assert (nrows t = List.length
            (map (fun e => pd.take (map Str srxs) (pd.rpos e)) plan)) as Hn
    by (unfold nrows; now rewrite Hit, !length_map).
  rewrite Hn, map_nth_seq in Hks.
  apply distinct_count. intros s.
  rewrite (key_of_present _ _ s Hks), in_map_iff. split.
  - intros [e [He Hin]]. apply take_Str in He. destruct He as [j [Hr Hs]].
    destruct (proj1 (join_plan_matched wd right j)) as [l [Hl Hjl]];
      [now exists e|].
    apply in_map_iff. exists (s, l). split; [reflexivity|].
    apply filter_In. split.
    + apply In_combine_nth_error. now exists j.
    + simpl. apply mem_In. now rewrite <- Hidx.
  - intros Hin. apply in_map_iff in Hin. destruct Hin as [[s0 l] [Hs Hin]].
    simpl in Hs. subst s0. apply filter_In in Hin. destruct Hin as [Hc Hd].
    simpl in Hd. apply mem_In in Hd.
    apply In_combine_nth_error in Hc. destruct Hc as [j [Hsj Hlj]].
    destruct (proj2 (join_plan_matched wd right j)) as [e [He Hr]].
    { exists l. split; [now rewrite Hidx | exact Hlj]. }
    exists e. split; [|exact He]. apply take_Str. now exists j.
Qed.

Lemma ungrouped_rows (fs : FileSystem) (srrs done_srrs : list string)
    (t : DataFrame) :
  NoDup srrs ->
  joined_table fs (mkDF srrs [("srr", map Str srrs)]) done_srrs = OK t ->
  nrows t = List.length done_srrs.
Proof.
  intros Hnd Hj. apply joined_table_inv in Hj.
  destruct Hj as (wd & Hidx & _ & Hit & _).
  unfold nrows. rewrite Hit, length_map, join_plan_length by exact Hnd.
  unfold nrows. now rewrite Hidx.
Qed.

Lemma read_manifest_two (fs : FileSystem) (input h1 h2 : string)
    (srxs srrs : list string) :
  read_table fs input = OK [(h1, srxs); (h2, srrs)] ->
  read_manifest fs input
  = OK (mkDF srrs [("srx", map Str srxs); ("srr", map Str srrs)]).
Proof. intros H. unfold read_manifest. rewrite H. reflexivity. Qed.

Lemma read_manifest_one (fs : FileSystem) (input h : string)
    (srrs : list string) :
  read_table fs input = OK [(h, srrs)] ->
  read_manifest fs input = OK (mkDF srrs [("srr", map Str srrs)]).
Proof. intros H. unfold read_manifest. rewrite H. reflexivity. Qed.

Lemma getitem_index (df s : DataFrame) (labels : list string) :
  pd.getitem df labels = OK s -> index s = index df.
Proof.
  unfold pd.getitem.
  destruct (filter (fun l => negb (mem l (names df))) labels); intros H;
    inversion H. reflexivity.
Qed.

Lemma loc_columns_index (df s : DataFrame) (labels : list string) :
  pd.loc_columns df labels = OK s -> index s = index df.
Proof. apply getitem_index. Qed.

Lemma nrows_rename (df : DataFrame) (mapping : list (string * string)) :
  nrows (pd.rename df mapping) = nrows df.
Proof. reflexivity. Qed.

Lemma build_features_written (input : string) (fs fs' : FileSystem) :
  build_features input fs = (OK tt, fs') ->
  exists df,
    feature_table fs input = OK df /\
    parquet_files fs' "features.parquet" = Some df.
Proof.
  unfold build_features.
  destruct (feature_table fs input) as [df|e]; [|discriminate].
  unfold to_parquet. destruct (pd.unique (names df)); [|discriminate].
  intros H. inversion H. exists df. split; reflexivity.
Qed.

Lemma bind_inv {A B : Type} (r : result A) (k : A -> result B) (b : B) :
  bind r k = OK b -> exists a, r = OK a /\ k a = OK b.
Proof.
  destruct r as [a|e]; simpl; intros H; [|discriminate]. now exists a.
Qed.

(** The two branches of [feature_table], by the number of columns of the
    manifest frame. *)
Lemma feature_table_branch (fs : FileSystem) (input : string)
    (srr_df : DataFrame) (done_srrs : list string) (grouped : bool) :
  read_manifest fs input = OK srr_df ->
  read_done_srrs fs = OK done_srrs ->
  Nat.eqb (List.length (columns srr_df)) 2 = grouped ->
  feature_table fs input =
  if grouped
  then
    t <- joined_table fs srr_df done_srrs ;;
    g <- pd.groupby_agg t "srx" FEATURE_AGG ;;
    OK (pd.rename g FEATURE_RENAME)
  else
    t <- joined_table fs srr_df done_srrs ;;
    s <- pd.loc_columns t (keys FEATURE_AGG) ;;
    OK (pd.rename s FEATURE_RENAME).
Proof.
  intros Hm Hd Hg. unfold feature_table. rewrite Hm, Hd. cbn [bind].
  rewrite Hg. reflexivity.
Qed.

Lemma feature_table_grouped (fs : FileSystem) (input h1 h2 : string)
    (srxs srrs done_srrs : list string) (out : DataFrame) :
  read_table fs input = OK [(h1, srxs); (h2, srrs)] ->
  read_done_srrs fs = OK done_srrs ->
  feature_table fs input = OK out ->
  nrows out =
  List.length
    (nodup string_dec
       (map fst (filter (fun p => mem (snd p) done_srrs) (combine srxs srrs)))).
Proof.
  intros Hm Hd Hft.
  rewrite (feature_table_branch fs input _ done_srrs true
             (read_manifest_two fs input h1 h2 srxs srrs Hm) Hd eq_refl) in Hft.
  apply bind_inv in Hft. destruct Hft as [t [Et Hft]].
  apply bind_inv in Hft. destruct Hft as [g [Eg Hft]].
  inversion Hft. rewrite nrows_rename.
  exact (grouped_rows fs srxs srrs done_srrs t g Et Eg).
Qed.

Lemma feature_table_ungrouped (fs : FileSystem) (input h : string)
    (srrs done_srrs : list string) (out : DataFrame) :
  read_table fs input = OK [(h, srrs)] ->
  read_done_srrs fs = OK done_srrs ->
  NoDup srrs ->
  feature_table fs input = OK out ->
  nrows out = List.length done_srrs.
Proof.
  intros Hm Hd Hnd Hft.
  rewrite (feature_table_branch fs input _ done_srrs false
             (read_manifest_one fs input h srrs Hm) Hd eq_refl) in Hft.
  apply bind_inv in Hft. destruct Hft as [t [Et Hft]].
  apply bind_inv in Hft. destruct Hft as [s [Es Hft]].
  inversion Hft. rewrite nrows_rename.
  apply loc_columns_index in Es.
  unfold nrows at 1. rewrite Es.
  exact (ungrouped_rows fs srrs done_srrs t Hnd Et).
Qed.

(** C5. When the program succeeds, the feature table it writes has, for a
    manifest of two columns, one row per distinct sample ID among the
    manifest rows whose run is in the completion list, and, for a manifest
    of one column whose runs are distinct, one row per entry of the
    completion list, repeated entries included. *)
Theorem feature_table_rows (input : string) (fs fs' : FileSystem)
    (m : TextTable) (done_srrs : list string) :
  read_table fs input = OK m ->
  read_done_srrs fs = OK done_srrs ->
  build_features input fs = (OK tt, fs') ->
  exists out,
    parquet_files fs' "features.parquet" = Some out /\
    (List.length m = 2 ->
     nrows out = List.length (nodup string_dec (samples_of_done m done_srrs))) /\
    (List.length m = 1 -> NoDup (manifest_runs m) ->
     nrows out = List.length done_srrs).
Proof.
  intros Hm Hd Hb. apply build_features_written in Hb.
  destruct Hb as [out [Hft Hw]]. exists out. split; [exact Hw|]. split.
  - intros Hlen. destruct m as [|[h1 srxs] [|[h2 srrs] [|]]]; try discriminate.
    exact (feature_table_grouped fs input h1 h2 srxs srrs done_srrs out Hm Hd Hft).
  - intros Hlen Hnd. destruct m as [|[h srrs] [|]]; try discriminate.
    exact (feature_table_ungrouped fs input h srrs done_srrs out Hm Hd Hnd Hft).
Qed.

Lemma feature_table_rows_witness :
  exists out,
    written "manifest.tsv" scenario = Some out /\ nrows out = 2.
Proof.
  destruct (feature_table_rows "manifest.tsv" scenario
              (snd (build_features "manifest.tsv" scenario))
              [("sample", ["S1"; "S1"; "S2"]); ("run", ["R1"; "R2"; "R3"])]
              ["R1"; "R2"; "R3"])
    as (out & Hw & Hg & _).
  - vm_compute. reflexivity.
  - vm_compute. reflexivity.
  - apply injective_projections; [vm_compute; reflexivity | reflexivity].
  - exists out. split; [exact Hw|]. rewrite Hg by reflexivity.
    vm_compute. reflexivity.
Defined.

(** * Further properties of the program *)

(** ** The schema of the feature table *)

Lemma public_names_renamed :
  map (pd.renamed FEATURE_RENAME) (keys FEATURE_AGG) = public_names.
Proof. vm_compute. reflexivity. Qed.

Lemma feature_table_inv (fs : FileSystem) (input : string) (out : DataFrame) :
  feature_table fs input = OK out ->
  exists srr_df done_srrs t,
    read_manifest fs input = OK srr_df /\
    read_done_srrs fs = OK done_srrs /\
    joined_table fs srr_df done_srrs = OK t /\
    ((Nat.eqb (List.length (columns srr_df)) 2 = true /\
      exists g, pd.groupby_agg t "srx" FEATURE_AGG = OK g /\
                out = pd.rename g FEATURE_RENAME)
     \/
     (Nat.eqb (List.length (columns srr_df)) 2 = false /\
      exists s, pd.loc_columns t (keys FEATURE_AGG) = OK s /\
                out = pd.rename s FEATURE_RENAME)).
Proof.
  unfold feature_table. intros H.
  apply bind_inv in H. destruct H as [srr_df [Hm H]].
  apply bind_inv in H. destruct H as [done_srrs [Hd H]].
  exists srr_df, done_srrs.
  destruct (Nat.eqb (List.length (columns srr_df)) 2) eqn:E.
  - apply bind_inv in H. destruct H as [t [Ht H]].
    apply bind_inv in H. destruct H as [g [Hg H]].
    exists t. repeat split; try assumption. left. split; [reflexivity|].
    exists g. split; [assumption|]. now inversion H.
  - apply bind_inv in H. destruct H as [t [Ht H]].
    apply bind_inv in H. destruct H as [s [Hs H]].
    exists t. repeat split; try assumption. right. split; [reflexivity|].
    exists s. split; [assumption|]. now inversion H.
Qed.

Lemma build_features_inv (input : string) (fs fs' : FileSystem) :
  build_features input fs = (OK tt, fs') ->
  exists df,
    feature_table fs input = OK df /\
    NoDup (names df) /\
    parquet_files fs' "features.parquet" = Some df.
Proof.
  unfold build_features.
  destruct (feature_table fs input) as [df|e]; [|discriminate].
  unfold to_parquet. destruct (pd.unique (names df)) eqn:E; [|discriminate].
  intros H. inversion H. exists df. split; [reflexivity|].
  split; [now apply unique_NoDup | reflexivity].
Qed.

Lemma NoDup_repeat_le {A : Type} (x : A) (n : nat) :
  NoDup (repeat x n) -> n <= 1.
Proof.
  destruct n as [|[|n]]; simpl; intros H; [lia | lia |].
  inversion H as [|? ? Hx _]. exfalso. apply Hx. now left.
Qed.

(** Segments that repeat their own label, none of them empty, and no
    repetition overall: every segment is the label, once. *)
Lemma flat_map_singletons (g : string -> list string) (ks : list string) :
  (forall k, In k ks -> exists n, g k = repeat k (S n)) ->
  NoDup (flat_map g ks) -> flat_map g ks = ks.
Proof.
  induction ks as [|k t IH]; simpl; intros Hg Hnd; [reflexivity|].
  destruct (Hg k (or_introl eq_refl)) as [n Hk].
  pose proof (NoDup_app_remove_r _ _ Hnd) as H1.
  pose proof (NoDup_app_remove_l _ _ Hnd) as H2.
  rewrite Hk in H1. apply (NoDup_repeat_le k (S n)) in H1.
  assert (n = 0) as -> by lia. rewrite Hk. simpl. f_equal.
  apply IH; [|exact H2]. intros k' Hk'. apply Hg. now right.
Qed.

Lemma names_filter_named (cs : list (string * list cell)) (l : string) :
  map fst (filter (fun c => String.eqb (fst c) l) cs)
  = repeat l (List.length (filter (fun c => String.eqb (fst c) l) cs)).
Proof.
  induction cs as [|c t IH]; simpl; [reflexivity|].
  destruct (String.eqb (fst c) l) eqn:E; [|exact IH].
  apply String.eqb_eq in E. simpl. now rewrite E, IH.
Qed.

(** The names of [df[labels]]: every label, as often as the frame has a
    column of that name. *)
Lemma getitem_names (df s : DataFrame) (labels : list string) :
  pd.getitem df labels = OK s ->
  names s = flat_map (fun l => map fst (columns_named df l)) labels /\
  forall l, In l labels -> exists n,
    map fst (columns_named df l) = repeat l (S n).
Proof.
  intros H. destruct (getitem_cases df labels) as [[Hp E] | [_ E]];
    rewrite E in H; [|discriminate].
  inversion H. split.
  - unfold names. cbn [columns]. unfold columns_named.
    clear. induction labels as [|l t IH]; simpl; [reflexivity|].
    now rewrite map_app, IH.
  - intros l Hl. unfold columns_named. rewrite names_filter_named.
    specialize (Hp l Hl). apply in_map_iff in Hp. destruct Hp as [c [Hc Hin]].
    assert (In c (filter (fun c' => String.eqb (fst c') l) (columns df))) as Hf
      by (apply filter_In; split; [assumption | now apply String.eqb_eq]).
    destruct (filter (fun c' => String.eqb (fst c') l) (columns df)) as [|x xs];
      [contradiction|].
    now exists (List.length xs).
Qed.

(** The labels selected by [loc] are the names of the result, when these
    are distinct (even after a renaming). *)
Lemma loc_unique_names (t s : DataFrame) (labels : list string)
    (f : string -> string) :
  pd.loc_columns t labels = OK s ->
  NoDup (map f (names s)) -> names s = labels.
Proof.
  unfold pd.loc_columns. intros Hs Hnd.
  apply NoDup_map_inv in Hnd. apply getitem_names in Hs.
  destruct Hs as [Hn Hrep]. rewrite Hn. rewrite Hn in Hnd.
  exact (flat_map_singletons _ labels Hrep Hnd).
Qed.

Lemma mapM_tagged {A : Type} (k : string) (h : A -> result (list cell))
    (l : list A) (bs : list (string * list cell)) :
  mapM (fun c => vs <- h c ;; OK (k, vs)) l = OK bs ->
  map fst bs = repeat k (List.length l).
Proof.
  revert bs. induction l as [|x t IH]; simpl; intros bs H.
  - now inversion H.
  - apply bind_inv in H. destruct H as [b [Hb H]].
    apply bind_inv in H. destruct H as [bs' [Hbs H]]. inversion H.
    apply bind_inv in Hb. destruct Hb as [vs [_ Hb]]. inversion Hb.
    simpl. now rewrite (IH bs' Hbs).
Qed.

(** The names of the table [groupby(key).agg(spec)] returns: every name of
    [spec], as often as the frame has a column of that name. *)
Lemma groupby_names (t g : DataFrame) (key : string)
    (spec : list (string * pd.aggfunc)) :
  pd.groupby_agg t key spec = OK g ->
  names g = flat_map (fun l => map fst (columns_named t l)) (keys spec) /\
  forall l, In l (keys spec) -> exists n,
    map fst (columns_named t l) = repeat l (S n).
Proof.
  intros H. pose proof (groupby_agg_present t g key spec H) as Hp.
  apply groupby_agg_inv in H. destruct H as (kc & ks & cs & _ & _ & Hcs & ->).
  split.
  - unfold names. cbn [columns]. clear Hp. revert cs Hcs.
    induction spec as [|e sp IH]; intros cs Hcs.
    + simpl in Hcs. inversion Hcs. reflexivity.
    + simpl in Hcs. apply bind_inv in Hcs. destruct Hcs as [b [Hb Hcs]].
      apply bind_inv in Hcs. destruct Hcs as [bs [Hbs Hcs]]. inversion Hcs.
      simpl. rewrite map_app, (IH bs Hbs). f_equal.
      rewrite (mapM_tagged _ _ _ _ Hb). unfold columns_named.
      now rewrite names_filter_named.
  - intros l Hl. unfold columns_named. rewrite names_filter_named.
    specialize (Hp l Hl). apply in_map_iff in Hp. destruct Hp as [c [Hc Hin]].
    assert (In c (filter (fun c' => String.eqb (fst c') l) (columns t))) as Hf
      by (apply filter_In; split; [assumption | now apply String.eqb_eq]).
    destruct (filter (fun c' => String.eqb (fst c') l) (columns t)) as [|x xs];
      [contradiction|].
    now exists (List.length xs).
Qed.

(** The names of [spec] are the names of the grouped table, when these are
    distinct (even after a renaming). *)
Lemma groupby_unique_names (t g : DataFrame) (key : string)
    (spec : list (string * pd.aggfunc)) (f : string -> string) :
  pd.groupby_agg t key spec = OK g ->
  NoDup (map f (names g)) -> names g = keys spec.
Proof.
  intros Hg Hnd. apply NoDup_map_inv in Hnd. apply groupby_names in Hg.
  destruct Hg as [Hn Hrep]. rewrite Hn. rewrite Hn in Hnd.
  exact (flat_map_singletons _ (keys spec) Hrep Hnd).
Qed.

(** X1. Whenever the program succeeds, with a manifest of any shape, the
    table it writes to features.parquet has exactly the 21 public feature
    names as its column names, in the order of the catalog. *)
Theorem written_schema (input : string) (fs fs' : FileSystem) :
  build_features input fs = (OK tt, fs') ->
  exists out,
    parquet_files fs' "features.parquet" = Some out /\
    names out = public_names.
Proof.
  intros H. apply build_features_inv in H. destruct H as (out & Hft & Hnd & Hw).
  exists out. split; [exact Hw|].
  apply feature_table_inv in Hft.
  destruct Hft as (srr_df & done_srrs & t & _ & _ & _ & Hmode).
  destruct Hmode as [[_ [g [Hg Hout]]] | [_ [s [Hs Hout]]]]; subst out;
    rewrite names_rename.
  - rewrite names_rename in Hnd.
    rewrite (groupby_unique_names t g _ _ _ Hg Hnd). exact public_names_renamed.
  - rewrite names_rename in Hnd.
    rewrite (loc_unique_names t s _ _ Hs Hnd). exact public_names_renamed.
Qed.

Lemma written_schema_witness :
  exists out,
    parquet_files (snd (build_features "runs.tsv" scenario)) "features.parquet"
    = Some out /\
    names out = public_names.
Proof.
  assert (fst (build_features "runs.tsv" scenario) = OK tt) as E
    by (vm_compute; reflexivity).
  apply (written_schema "runs.tsv" scenario
           (snd (build_features "runs.tsv" scenario))).
  rewrite <- E. apply surjective_pairing.
Defined.

(** ** The shape of the reduced table *)

Lemma sums_length (df : DataFrame) (labels : list string) :
  List.length (sums df labels) = nrows df.
Proof. unfold sums. now rewrite length_map, length_seq. Qed.

Lemma In_setitem_cases (df : DataFrame) (n : string) (v : list cell)
    (c : string * list cell) :
  In c (columns (pd.setitem df n v)) -> c = (n, v) \/ In c (columns df).
Proof.
  unfold pd.setitem. destruct (mem n (names df)); cbn [columns]; intros H.
  - apply in_map_iff in H. destruct H as [c0 [Hc Hin]].
    destruct (String.eqb (fst c0) n); [now left | right; now subst].
  - apply in_app_iff in H. destruct H as [H | [H | []]]; [now right | now left].
Qed.

(** X2. The table the reducer returns has the rows of its input: the same
    number of rows, one cell per row in each of its three tertile columns
    (none on a table without rows), and it is well formed (every column has
    one cell per row label) whenever the input is. *)
Theorem coverage_keeps_shape (df out : DataFrame) :
  aggregate_gene_body_coverage df = OK out ->
  nrows out = nrows df /\
  (forall c, In c (columns out) -> In (fst c) tertiles ->
             List.length (snd c) = nrows df) /\
  (wf df -> wf out).
Proof.
  intros H. apply aggregate_inv in H. destruct H as [_ ->].
  assert (forall c, In c (columns (reduced df)) ->
            c = ("gene_body_three_prime", sums df three_prime) \/
            c = ("gene_body_middle", sums df middle) \/
            c = ("gene_body_five_prime", sums df five_prime) \/
            In c (columns df)) as Hcases.
  { intros c Hc. unfold reduced in Hc. cbv zeta in Hc. cbn [columns] in Hc.
    apply filter_In in Hc. destruct Hc as [Hc _].
    apply In_setitem_cases in Hc. destruct Hc as [Hc | Hc]; [now left|].
    apply In_setitem_cases in Hc. destruct Hc as [Hc | Hc]; [right; now left|].
    apply In_setitem_cases in Hc. tauto. }
  split; [reflexivity|]. split.
  - intros c Hc Ht. destruct c as [n v]. cbn [fst snd] in *.
    pose proof (reduced_five_prime df) as [_ H5].
    pose proof (reduced_middle df) as [_ Hm].
    pose proof (reduced_three_prime df) as [_ H3].
    destruct Ht as [<- | [<- | [<- | []]]].
    + pose proof (H5 _ Hc eq_refl) as E. cbn [snd] in E. rewrite E.
      apply sums_length.
    + pose proof (Hm _ Hc eq_refl) as E. cbn [snd] in E. rewrite E.
      apply sums_length.
    + pose proof (H3 _ Hc eq_refl) as E. cbn [snd] in E. rewrite E.
      apply sums_length.
  - intros Hwf c Hc. change (nrows (reduced df)) with (nrows df).
    destruct (Hcases c Hc) as [-> | [-> | [-> | Hin]]];
      try apply sums_length. now apply Hwf.
Qed.

Lemma coverage_keeps_shape_witness :
  nrows coverage_example_reduced = nrows coverage_example /\
  wf coverage_example_reduced.
Proof.
  destruct (coverage_keeps_shape coverage_example coverage_example_reduced)
    as (Hn & _ & Hwf).
  - vm_compute. reflexivity.
  - split; [exact Hn|]. apply Hwf. intros c Hc. vm_compute in Hc.
    repeat (destruct Hc as [<- | Hc]; [reflexivity|]). contradiction.
Defined.

(** ** Failing inputs *)

Lemma build_features_error (input : string) (fs : FileSystem) (e : error) :
  feature_table fs input = Err e -> build_features input fs = (Err e, fs).
Proof. unfold build_features. now intros ->. Qed.

Lemma text_column_missing (t : TextTable) (name : string) :
  ~ In name (map fst t) -> text_column t name = Err (KeyError [name]).
Proof.
  intros H. unfold text_column.
  destruct (find (fun c => String.eqb (fst c) name) t) as [c|] eqn:E;
    [|reflexivity].
  exfalso. apply find_some in E. destruct E as [Hc He].
  apply String.eqb_eq in He. apply H. rewrite <- He. now apply in_map.
Qed.

(** X3. The two text inputs are read first, the manifest before the
    completion list, and a problem with either stops the program before any
    table is loaded; nothing is written.  A manifest that cannot be read is
    a FileNotFoundError on its path; a manifest of three or more columns
    none of which is headed srr is a KeyError on srr; then a completion list
    that cannot be read is a FileNotFoundError on done_sample.txt, and one
    without a column headed srr is a KeyError on srr. *)
Theorem input_errors (input : string) (fs : FileSystem) :
  (text_files fs input = None ->
   build_features input fs = (Err (FileNotFoundError input), fs)) /\
  (forall m, text_files fs input = Some m -> 3 <= List.length m ->
     ~ In "srr" (map fst m) ->
     build_features input fs = (Err (KeyError ["srr"]), fs)) /\
  (forall srr_df, read_manifest fs input = OK srr_df ->
     text_files fs "done_sample.txt" = None ->
     build_features input fs = (Err (FileNotFoundError "done_sample.txt"), fs)) /\
  (forall srr_df d, read_manifest fs input = OK srr_df ->
     text_files fs "done_sample.txt" = Some d -> ~ In "srr" (map fst d) ->
     build_features input fs = (Err (KeyError ["srr"]), fs)).
Proof.
  split; [|split; [|split]].
  - intros H. apply build_features_error.
    unfold feature_table, read_manifest, read_table. now rewrite H.
  - intros m H Hlen Hno. apply build_features_error.
    unfold feature_table, read_manifest, read_table. rewrite H. cbn [bind].
    destruct m as [|c1 [|c2 [|c3 t]]]; simpl in Hlen; try lia.
    cbn [List.length Nat.eqb]. unfold set_index.
    now rewrite (text_column_missing _ _ Hno).
  - intros srr_df Hm H. apply build_features_error.
    unfold feature_table. rewrite Hm. cbn [bind].
    unfold read_done_srrs, read_table, done_sample_file. now rewrite H.
  - intros srr_df d Hm H Hno. apply build_features_error.
    unfold feature_table. rewrite Hm. cbn [bind].
    unfold read_done_srrs, read_table, done_sample_file. rewrite H. cbn [bind].
    now rewrite (text_column_missing _ _ Hno).
Qed.

Lemma input_errors_witness :
  build_features "nowhere.tsv" scenario
  = (Err (FileNotFoundError "nowhere.tsv"), scenario).
Proof.
  apply (proj1 (input_errors "nowhere.tsv" scenario)). reflexivity.
Defined.

(** ** What the loader returns *)

Lemma map_fst_flat_map {A : Type} (f : A -> list (string * list cell))
    (l : list A) :
  map fst (flat_map f l) = flat_map (fun a => map fst (f a)) l.
Proof.
  induction l as [|a t IH]; simpl; [reflexivity|]. now rewrite map_app, IH.
Qed.

Lemma map_flat_map {A B C : Type} (g : B -> C) (f : A -> list B) (l : list A) :
  map g (flat_map f l) = flat_map (fun a => map g (f a)) l.
Proof.
  induction l as [|a t IH]; simpl; [reflexivity|]. now rewrite map_app, IH.
Qed.

Lemma flat_map_ext_in {A B : Type} (f g : A -> list B) (l : list A) :
  (forall a, In a l -> f a = g a) -> flat_map f l = flat_map g l.
Proof.
  induction l as [|a t IH]; simpl; intros H; [reflexivity|].
  rewrite (H a (or_introl eq_refl)), IH; [reflexivity|].
  intros a' Ha'. apply H. now right.
Qed.

Lemma names_aligned (df : DataFrame) (labels : list string) :
  map fst (aligned df labels) = names df.
Proof. unfold aligned, names. rewrite map_map. reflexivity. Qed.

Lemma position_Some (r : string) (idx : list string) (k : nat) :
  pd.position r idx = Some k -> nth_error idx k = Some r.
Proof.
  revert k. induction idx as [|x t IH]; simpl; intros k H; [discriminate|].
  destruct (String.eqb x r) eqn:E.
  - inversion H. subst. apply String.eqb_eq in E. now subst.
  - destruct (pd.position r t) as [k'|]; simpl in H; [|discriminate].
    inversion H. subst. simpl. now apply IH.
Qed.

Lemma position_None_inv (r : string) (idx : list string) :
  pd.position r idx = None -> ~ In r idx.
Proof.
  induction idx as [|x t IH]; simpl; intros H; [tauto|].
  destruct (String.eqb x r) eqn:E; [discriminate|].
  apply String.eqb_neq in E.
  destruct (pd.position r t); simpl in H; [discriminate|].
  intros [Hx | Hin]; [contradiction | now apply IH].
Qed.

(** A column read back on its own row labels is itself. *)
Lemma take_positions_self (idx : list string) (col : list cell) :
  NoDup idx -> List.length col = List.length idx ->
  map (fun r => pd.take col (pd.position r idx)) idx = col.
Proof.
  revert col. induction idx as [|x t IH]; intros col Hnd Hlen.
  - destruct col; [reflexivity | discriminate].
  - destruct col as [|v col]; [discriminate|].
    inversion Hnd as [|? ? Hx Ht]. subst. simpl.
    rewrite String.eqb_refl. simpl. f_equal.
    transitivity (map (fun r => pd.take col (pd.position r t)) t).
    + apply map_ext_in. intros r Hr.
      assert (String.eqb x r = false) as ->
        by (apply String.eqb_neq; intros ->; contradiction).
      destruct (pd.position r t); reflexivity.
    + apply IH; [assumption | simpl in Hlen; lia].
Qed.

Lemma aligned_self (df : DataFrame) :
  wf df -> NoDup (index df) -> aligned df (index df) = columns df.
Proof.
  intros Hwf Hnd. unfold aligned.
  rewrite <- (map_id (columns df)) at 2. apply map_ext_in. intros c Hc.
  rewrite take_positions_self; [now destruct c | assumption | now apply Hwf].
Qed.

(** Aligning on [idx] and then on [labels] is aligning on [labels], when
    [idx] has every row label of the source. *)
Lemma take_twice (col : list cell) (src idx : list string) (r : string) :
  (forall x, In x src -> In x idx) ->
  pd.take (map (fun r' => pd.take col (pd.position r' src)) idx)
    (pd.position r idx)
  = pd.take col (pd.position r src).
Proof.
  intros Hs. destruct (pd.position r idx) as [k|] eqn:E; simpl.
  - apply position_Some in E.
    now rewrite (nth_error_nth _ _ _
                   (map_nth_error (fun r' => pd.take col (pd.position r' src))
                      _ _ E)).
  - apply position_None_inv in E.
    rewrite position_None; [reflexivity|]. intros H. apply E. now apply Hs.
Qed.

Lemma forallb_list_eqb (dfs : list DataFrame) (idx : list string) :
  forallb (fun d => pd.list_eqb (index d) idx) dfs = true ->
  forall df, In df dfs -> index df = idx.
Proof.
  rewrite forallb_forall. intros H df Hdf. now apply list_eqb_eq, H.
Qed.

(** The concatenation, whichever way pandas builds it. *)
Lemma concat_inv (dfs : list DataFrame) (d : DataFrame) :
  pd.concat_axis1 dfs = OK d ->
  ((forall df, In df dfs -> index df = index d) /\
   columns d = flat_map columns dfs)
  \/
  ((forall df x, In df dfs -> In x (index df) -> In x (index d)) /\
   NoDup (index d) /\
   columns d = flat_map (fun df => aligned df (index d)) dfs).
Proof.
  unfold pd.concat_axis1. destruct dfs as [|d0 t]; [discriminate|].
  destruct (forallb (fun d1 => pd.list_eqb (index d1) (index d0)) (d0 :: t))
    eqn:E.
  - intros H. inversion H. left. split; [|reflexivity].
    cbn [index]. now apply forallb_list_eqb.
  - destruct (forallb (fun d1 => pd.unique (index d1)) (d0 :: t));
      [|discriminate].
    intros H. inversion H. right. cbn [index columns].
    split; [|split; [apply dedup_NoDup | reflexivity]].
    intros df x Hdf Hx. apply dedup_In.
    change (In x (flat_map index (d0 :: t))).
    apply in_flat_map. now exists df.
Qed.

Lemma reindex_inv (d out : DataFrame) (labels : list string) :
  pd.reindex d labels = OK out ->
  (index d = labels /\ out = d) \/
  out = mkDF labels
          (map (fun c =>
                  (fst c,
                   map (fun r => pd.take (snd c) (pd.position r (index d)))
                     labels))
             (columns d)).
Proof.
  unfold pd.reindex. destruct (pd.list_eqb (index d) labels) eqn:E.
  - intros H. injection H as <-. left.
    split; [exact (proj1 (list_eqb_eq _ _) E) | reflexivity].
  - destruct (pd.unique (index d)); intros H; [|discriminate].
    injection H as <-. now right.
Qed.

Lemma workflow_data_inv (fs : FileSystem) (srrs : list string)
    (folders : list (string * string)) (out : DataFrame) :
  workflow_data fs srrs folders = OK out ->
  exists dfs d,
    mapM (read_parquet fs) (map snd folders) = OK dfs /\
    pd.concat_axis1 dfs = OK d /\
    pd.reindex d srrs = OK out.
Proof.
  unfold workflow_data. intros H.
  apply bind_inv in H. destruct H as [dfs [Hr H]].
  apply bind_inv in H. destruct H as [d [Hc H]].
  now exists dfs, d.
Qed.

(** X4. The columns of the table the loader returns are the columns of the
    source tables side by side, in the order of the paths: no column is
    dropped or merged, and a name that two sources share occurs twice. *)
Theorem workflow_data_columns (fs : FileSystem) (srrs : list string)
    (workflow_folders : list (string * string)) (out : DataFrame) :
  workflow_data fs srrs workflow_folders = OK out ->
  exists dfs,
    mapM (read_parquet fs) (map snd workflow_folders) = OK dfs /\
    List.length dfs = List.length workflow_folders /\
    names out = flat_map names dfs.
Proof.
  intros H. apply workflow_data_inv in H.
  destruct H as (dfs & d & Hr & Hc & Hx). exists dfs.
  split; [exact Hr|]. split.
  - apply mapM_length in Hr. now rewrite Hr, length_map.
  - assert (names d = flat_map names dfs) as Hd.
    { unfold names. apply concat_inv in Hc.
      destruct Hc as [[_ ->] | [_ [_ ->]]]; rewrite map_fst_flat_map;
        [reflexivity|].
      apply flat_map_ext_in. intros df _. apply names_aligned. }
    apply reindex_inv in Hx. destruct Hx as [[_ ->] | ->]; [exact Hd|].
    rewrite <- Hd. unfold names. cbn [columns]. now rewrite map_map.
Qed.

Lemma workflow_data_columns_witness :
  exists dfs,
    mapM (read_parquet scenario) (map snd feature_dict) = OK dfs /\
    List.length dfs = 9 /\
    exists out,
      workflow_data scenario ["R1"; "R2"; "R3"] feature_dict = OK out /\
      names out = flat_map names dfs.
Proof.
  destruct (workflow_data scenario ["R1"; "R2"; "R3"] feature_dict)
    as [out|e] eqn:E; [|vm_compute in E; discriminate].
  destruct (workflow_data_columns _ _ _ _ E) as (dfs & Hr & Hl & Hn).
  exists dfs. split; [exact Hr|]. split; [exact Hl|].
  exists out. split; [reflexivity | exact Hn].
Defined.

(** X5. With source tables that are well formed and have no repeated run,
    the table the loader returns is, column by column, the source column
    brought onto the completion list: at each entry of the list the value
    the source has for that run, and a missing value when the source has no
    row for it. *)
Theorem workflow_data_values (fs : FileSystem) (srrs : list string)
    (workflow_folders : list (string * string)) (dfs : list DataFrame)
    (out : DataFrame) :
  mapM (read_parquet fs) (map snd workflow_folders) = OK dfs ->
  (forall df, In df dfs -> wf df /\ NoDup (index df)) ->
  workflow_data fs srrs workflow_folders = OK out ->
  out = mkDF srrs (flat_map (fun df => aligned df srrs) dfs).
Proof.
  intros Hr Hsrc H. apply workflow_data_inv in H.
  destruct H as (dfs' & d & Hr' & Hc & Hx).
  rewrite Hr in Hr'. inversion Hr'. subst dfs'. clear Hr'.
  apply concat_inv in Hc. apply reindex_inv in Hx.
  destruct Hc as [[Hidx Hcols] | [Hsub [Hnd Hcols]]].
  - destruct Hx as [[Hd ->] | ->].
    + destruct d as [di dc]. cbn [index columns] in *. subst di dc.
      f_equal. apply flat_map_ext_in. intros df Hdf.
      destruct (Hsrc df Hdf) as [Hwf Hn].
      rewrite <- (Hidx df Hdf). symmetry. now apply aligned_self.
    + f_equal. rewrite Hcols, map_flat_map.
      apply flat_map_ext_in. intros df Hdf. unfold aligned.
      now rewrite (Hidx df Hdf).
  - destruct Hx as [[Hd ->] | ->].
    + destruct d as [di dc]. cbn [index columns] in *. now subst di dc.
    + f_equal. rewrite Hcols, map_flat_map.
      apply flat_map_ext_in. intros df Hdf. unfold aligned.
      rewrite map_map. apply map_ext. intros c. cbn [fst snd]. f_equal.
      apply map_ext. intros r. apply take_twice. intros x Hxin.
      now apply (Hsub df).
Qed.

Lemma wfb_spec (df : DataFrame) : wfb df = true -> wf df.
Proof.
  unfold wfb, wf. rewrite forallb_forall. intros H c Hc.
  now apply Nat.eqb_eq, H.
Qed.

Lemma workflow_data_values_witness :
  exists out,
    workflow_data scenario ["R1"; "R2"; "R3"] feature_dict = OK out /\
    out = mkDF ["R1"; "R2"; "R3"]
            (flat_map (fun df => aligned df ["R1"; "R2"; "R3"])
               (map snd scenario_sources)).
Proof.
  destruct (workflow_data scenario ["R1"; "R2"; "R3"] feature_dict)
    as [out|e] eqn:E; [|vm_compute in E; discriminate].
  exists out. split; [reflexivity|].
  apply (workflow_data_values scenario _ feature_dict _ out);
    [vm_compute; reflexivity | | exact E].
  assert (forallb (fun df => wfb df && pd.unique (index df))
            (map snd scenario_sources) = true) as H
    by (vm_compute; reflexivity).
  rewrite forallb_forall in H. intros df Hdf.
  specialize (H df Hdf). apply andb_true_iff in H. destruct H as [H1 H2].
  split; [now apply wfb_spec | now apply unique_NoDup].
Defined.

(** ** Source tables the program cannot use *)

Lemma mapM_error {A B : Type} (f : A -> result B) (l : list A) (a : A) (e : error) :
  In a l -> f a = Err e ->
  exists a' e', In a' l /\ f a' = Err e' /\ mapM f l = Err e'.
Proof.
  induction l as [|x t IH]; simpl; intros Hin Ha; [contradiction|].
  destruct (f x) as [b|e0] eqn:Ex.
  - destruct Hin as [-> | Hin]; [congruence|].
    destruct (IH Hin Ha) as (a' & e' & Ha' & Hf & Hm).
    exists a', e'. split; [now right|]. split; [exact Hf|].
    simpl. now rewrite Hm.
  - exists x, e0. split; [now left|]. split; [exact Ex | reflexivity].
Qed.

Lemma feature_table_joined_error (fs : FileSystem) (input : string)
    (srr_df : DataFrame) (done_srrs : list string) (e : error) :
  read_manifest fs input = OK srr_df ->
  read_done_srrs fs = OK done_srrs ->
  joined_table fs srr_df done_srrs = Err e ->
  feature_table fs input = Err e.
Proof.
  intros Hm Hd Hj. unfold feature_table. rewrite Hm, Hd. cbn [bind].
  rewrite Hj. cbn [bind]. now destruct (Nat.eqb _ 2).
Qed.

(** X6. When the manifest and the completion list are read and one of the
    nine parquet files of the Features directory is not there, the program
    fails with a FileNotFoundError on a missing file and writes nothing. *)
Theorem missing_source_fails (input : string) (fs : FileSystem)
    (srr_df : DataFrame) (done_srrs : list string) (name path : string) :
  read_manifest fs input = OK srr_df ->
  read_done_srrs fs = OK done_srrs ->
  In (name, path) feature_dict ->
  parquet_files fs path = None ->
  exists p,
    In p (map snd feature_dict) /\
    parquet_files fs p = None /\
    build_features input fs = (Err (FileNotFoundError p), fs).
Proof.
  intros Hm Hd Hin Hnone.
  assert (read_parquet fs path = Err (FileNotFoundError path)) as Hr
    by (unfold read_parquet; now rewrite Hnone).
  assert (In path (map snd feature_dict)) as Hp
    by (apply in_map_iff; now exists (name, path)).
  destruct (mapM_error (read_parquet fs) _ path _ Hp Hr)
    as (p & e & Hpin & Hpe & Hmap).
  unfold read_parquet in Hpe.
  destruct (parquet_files fs p) as [df|] eqn:Efile; [discriminate|].
  injection Hpe as <-. exists p. split; [exact Hpin|].
  split; [exact Efile|]. apply build_features_error.
  apply (feature_table_joined_error fs input srr_df done_srrs); try assumption.
  unfold joined_table, workflow_data. now rewrite Hmap.
Qed.

(** The files of [scenario] without the duplicate marking table. *)
Lemma missing_source_fails_witness :
  exists p,
    In p (map snd feature_dict) /\
    parquet_files
      (mkFS (lookup_file scenario_texts)
         (fun q => if String.eqb q "markduplicates.parquet" then None
                   else lookup_file scenario_sources q)) p = None /\
    build_features "manifest.tsv"
      (mkFS (lookup_file scenario_texts)
         (fun q => if String.eqb q "markduplicates.parquet" then None
                   else lookup_file scenario_sources q))
    = (Err (FileNotFoundError p),
       mkFS (lookup_file scenario_texts)
         (fun q => if String.eqb q "markduplicates.parquet" then None
                   else lookup_file scenario_sources q)).
Proof.
  eapply (missing_source_fails "manifest.tsv" _ _ _
            "markduplicates" "markduplicates.parquet").
  - vm_compute. reflexivity.
  - vm_compute. reflexivity.
  - vm_compute. tauto.
  - reflexivity.
Defined.

Lemma join_overlap (left right : DataFrame) (n : string) :
  In n (names left) -> In n (names right) ->
  pd.join left right
  = Err (ValueError "columns overlap but no suffix specified").
Proof.
  intros Hl Hr. unfold pd.join.
  assert (existsb (fun n => mem n (names right)) (names left) = true) as ->
    by (apply existsb_exists; exists n; split; [assumption | now apply mem_In]).
  reflexivity.
Qed.

Lemma set_index_names (t : TextTable) (name : string) (df : DataFrame) :
  set_index t name = OK df -> names df = map fst t /\ In name (map fst t).
Proof.
  unfold set_index, text_column. intros H.
  destruct (find (fun c => String.eqb (fst c) name) t) as [c|] eqn:E;
    cbn [bind] in H; [|discriminate].
  injection H as <-. split.
  - unfold names. cbn [columns]. now rewrite map_map.
  - apply find_some in E. destruct E as [Hc He]. apply String.eqb_eq in He.
    rewrite <- He. now apply in_map.
Qed.

Lemma read_manifest_has_srr (fs : FileSystem) (input : string)
    (srr_df : DataFrame) :
  read_manifest fs input = OK srr_df -> In "srr" (names srr_df).
Proof.
  unfold read_manifest. intros H. apply bind_inv in H.
  destruct H as [m [_ H]]. apply set_index_names in H.
  destruct H as [-> H]. exact H.
Qed.

(** X7. The manifest frame always has a column srr.  When the loaded table
    has a column of a name the manifest frame has too (srr, and srx for a
    manifest of two columns), the join raises a ValueError, as no suffix is
    given, and the program writes nothing: a source table may not have a
    column of such a name. *)
Theorem source_column_overlap_fails (input : string) (fs : FileSystem)
    (srr_df wd : DataFrame) (done_srrs : list string) :
  read_manifest fs input = OK srr_df ->
  read_done_srrs fs = OK done_srrs ->
  workflow_data fs done_srrs feature_dict = OK wd ->
  In "srr" (names srr_df) /\
  forall n, In n (names wd) -> In n (names srr_df) ->
    build_features input fs
    = (Err (ValueError "columns overlap but no suffix specified"), fs).
Proof.
  intros Hm Hd Hw. split; [now apply (read_manifest_has_srr fs input)|].
  intros n Hl Hr. apply build_features_error.
  apply (feature_table_joined_error fs input srr_df done_srrs); try assumption.
  unfold joined_table. rewrite Hw. cbn [bind].
  now rewrite (join_overlap wd srr_df n Hl Hr).
Qed.

(** The files of [scenario], with a column srr in the layout table. *)
Lemma source_column_overlap_fails_witness :
  fst (build_features "manifest.tsv"
         (mkFS (lookup_file scenario_texts)
            (lookup_file
               (("layout.parquet",
                 mkDF ["R1"; "R2"] [("srr", [Str "R1"; Str "R2"])])
                :: scenario_sources))))
  = Err (ValueError "columns overlap but no suffix specified").
Proof.
  set (fs := mkFS (lookup_file scenario_texts)
               (lookup_file
                  (("layout.parquet",
                    mkDF ["R1"; "R2"] [("srr", [Str "R1"; Str "R2"])])
                   :: scenario_sources))).
  destruct (workflow_data fs ["R1"; "R2"; "R3"] feature_dict) as [wd|e] eqn:E;
    [|vm_compute in E; discriminate].
  destruct (source_column_overlap_fails "manifest.tsv" fs
              (mkDF ["R1"; "R2"; "R3"]
                 [("srx", map Str ["S1"; "S1"; "S2"]);
                  ("srr", map Str ["R1"; "R2"; "R3"])])
              wd ["R1"; "R2"; "R3"]) as [Hs Hf].
  - vm_compute. reflexivity.
  - vm_compute. reflexivity.
  - exact E.
  - rewrite (Hf "srr"); [reflexivity | | exact Hs].
    apply mem_In. vm_compute in E. injection E as <-. vm_compute. reflexivity.
Defined.

(** ** The row labels of the feature table *)

Lemma insert_sorted_perm (x : string) (l : list string) :
  Permutation (pd.insert_sorted x l) (x :: l).
Proof.
  induction l as [|y t IH]; simpl; [reflexivity|].
  destruct (String.leb x y); [reflexivity|].
  rewrite IH. apply perm_swap.
Qed.

Lemma sort_perm (l : list string) : Permutation (pd.sort l) l.
Proof.
  unfold pd.sort. induction l as [|x t IH]; simpl; [reflexivity|].
  rewrite insert_sorted_perm. now constructor.
Qed.

Lemma insert_sorted_ascending (x : string) (l : list string) :
  ascending l -> ascending (pd.insert_sorted x l).
Proof.
  unfold ascending. induction l as [|y t IH]; simpl; intros H.
  - repeat constructor.
  - destruct (String.leb x y) eqn:E.
    + constructor; [assumption | now constructor].
    + inversion H as [|? ? Ht Hd]. subst. constructor; [now apply IH|].
      assert (String.leb y x = true) as Hyx
        by (destruct (String.leb_total x y); congruence).
      destruct t as [|z t']; simpl.
      * now constructor.
      * destruct (String.leb x z); constructor; [assumption|].
        now inversion Hd.
Qed.

Lemma sort_ascending (l : list string) : ascending (pd.sort l).
Proof.
  unfold pd.sort. induction l as [|x t IH]; simpl.
  - constructor.
  - now apply insert_sorted_ascending.
Qed.

(** The sample column of the joined table, for a manifest of two columns:
    the keys of the groups are the sample IDs of the manifest rows whose run
    is in the completion list. *)
Lemma grouped_keys (fs : FileSystem) (srxs srrs done_srrs : list string)
    (t g : DataFrame) :
  joined_table fs (mkDF srrs [("srx", map Str srxs); ("srr", map Str srrs)])
    done_srrs = OK t ->
  pd.groupby_agg t "srx" FEATURE_AGG = OK g ->
  exists ks,
    index g = pd.sort (pd.dedup (pd.present ks)) /\
    forall s, In s (pd.present ks) <->
              In s (map fst (filter (fun p => mem (snd p) done_srrs)
                               (combine srxs srrs))).
Proof.
  intros Hj Hg. apply joined_table_inv in Hj.
  destruct Hj as (wd & Hidx & Hov & Hit & Hcols).
  apply groupby_agg_inv in Hg. destruct Hg as (kc & ks & cs & Hk & Hks & _ & ->).
  exists ks. split; [reflexivity|].
  set (right := mkDF srrs [("srx", map Str srxs); ("srr", map Str srrs)]) in *.
  set (plan := pd.join_plan wd right) in *.
  assert (kc = ("srx", map (fun e => pd.take (map Str srxs) (pd.rpos e)) plan))
    as ->.
  { rewrite Hcols in Hk.
    - rewrite filter_none in Hk.
      + simpl in Hk. now inversion Hk.
      + rewrite map_map. simpl. fold (names wd). intros Hin.
        apply (Hov _ Hin). simpl. now left.
    - apply mem_false. vm_compute. reflexivity.
    - apply mem_false. vm_compute. reflexivity. }
  cbn [snd] in Hks.
  assert (nrows t = List.length
            (map (fun e => pd.take (map Str srxs) (pd.rpos e)) plan)) as Hn
    by (unfold nrows; now rewrite Hit, !length_map).
  rewrite Hn, map_nth_seq in Hks. intros s.
  rewrite (key_of_present _ _ s Hks), in_map_iff. split.
  - intros [e [He Hin]]. apply take_Str in He. destruct He as [j [Hr Hs]].
    destruct (proj1 (join_plan_matched wd right j)) as [l [Hl Hjl]];
      [now exists e|].
    apply in_map_iff. exists (s, l). split; [reflexivity|].
    apply filter_In. split.
    + apply In_combine_nth_error. now exists j.
    + simpl. apply mem_In. now rewrite <- Hidx.
  - intros Hin. apply in_map_iff in Hin. destruct Hin as [[s0 l] [Hs Hin]].
    simpl in Hs. subst s0. apply filter_In in Hin. destruct Hin as [Hc Hd].
    simpl in Hd. apply mem_In in Hd.
    apply In_combine_nth_error in Hc. destruct Hc as [j [Hsj Hlj]].
    destruct (proj2 (join_plan_matched wd right j)) as [e [He Hr]].
    { exists l. split; [now rewrite Hidx | exact Hlj]. }
    exists e. split; [|exact He]. apply take_Str. now exists j.
Qed.

(** X8. For a manifest of two columns, the rows of the feature table are
    labelled by sample: the labels are the sample IDs of the manifest rows
    whose run is in the completion list, each once, in ascending order. *)
Theorem grouped_rows_sorted (input : string) (fs fs' : FileSystem)
    (m : TextTable) (done_srrs : list string) :
  read_table fs input = OK m ->
  List.length m = 2 ->
  read_done_srrs fs = OK done_srrs ->
  build_features input fs = (OK tt, fs') ->
  exists out,
    parquet_files fs' "features.parquet" = Some out /\
    (forall s, In s (index out) <-> In s (samples_of_done m done_srrs)) /\
    NoDup (index out) /\
    ascending (index out).
Proof.
  intros Hm Hlen Hd Hb. apply build_features_written in Hb.
  destruct Hb as [out [Hft Hw]]. exists out. split; [exact Hw|].
  destruct m as [|[h1 srxs] [|[h2 srrs] [|]]]; try discriminate.
  rewrite (feature_table_branch fs input _ done_srrs true
             (read_manifest_two fs input h1 h2 srxs srrs Hm) Hd eq_refl) in Hft.
  apply bind_inv in Hft. destruct Hft as [t [Et Hft]].
  apply bind_inv in Hft. destruct Hft as [g [Eg Hft]].
  injection Hft as <-.
  destruct (grouped_keys fs srxs srrs done_srrs t g Et Eg) as [ks [Hi Hs]].
  change (index (pd.rename g FEATURE_RENAME)) with (index g). rewrite Hi.
  split; [|split].
  - intros s. unfold samples_of_done, manifest_pairs. rewrite <- Hs.
    rewrite <- (dedup_In (pd.present ks) s).
    split; apply Permutation_in;
      [apply sort_perm | symmetry; apply sort_perm].
  - apply (Permutation_NoDup (l := pd.dedup (pd.present ks)));
      [symmetry; apply sort_perm | apply dedup_NoDup].
  - apply sort_ascending.
Qed.

Lemma grouped_rows_sorted_witness :
  exists out,
    written "manifest.tsv" scenario = Some out /\
    NoDup (index out) /\ ascending (index out) /\ In "S2" (index out).
Proof.
  destruct (grouped_rows_sorted "manifest.tsv" scenario
              (snd (build_features "manifest.tsv" scenario))
              [("sample", ["S1"; "S1"; "S2"]); ("run", ["R1"; "R2"; "R3"])]
              ["R1"; "R2"; "R3"])
    as (out & Hw & Hs & Hn & Ha).
  - vm_compute. reflexivity.
  - reflexivity.
  - vm_compute. reflexivity.
  - apply injective_projections; [vm_compute; reflexivity | reflexivity].
  - exists out. split; [exact Hw|]. split; [exact Hn|]. split; [exact Ha|].
    apply Hs. vm_compute. tauto.
Defined.

Lemma join_plan_labels (left right : DataFrame) :
  NoDup (index right) ->
  map pd.label (pd.join_plan left right) = index left.
Proof.
  intros Hnd. unfold pd.join_plan, nrows.
  assert (forall a idx,
            map pd.label
              (flat_map
                 (fun p =>
                    match pd.positions (snd p) (index right) with
                    | [] => [pd.mkJoined (snd p) (fst p) None]
                    | js => map (fun j => pd.mkJoined (snd p) (fst p) (Some j)) js
                    end)
                 (combine (seq a (List.length idx)) idx))
            = idx) as H.
  { intros a idx. revert a. induction idx as [|x t IH]; simpl; intros a;
      [reflexivity|].
    rewrite map_app, IH.
    pose proof (positions_NoDup x (index right) Hnd) as Hp.
    destruct (pd.positions x (index right)) as [|j [|j' js]]; simpl in *;
      [reflexivity | reflexivity | lia]. }
  apply H.
Qed.

(** X9. For a manifest of one column whose runs are distinct and a
    completion list that lists no run twice, the rows of the feature table
    are labelled by run: the row labels are the completion list itself, in
    its order.  (With a run listed twice the join has a repeated row label
    on its left, and the order of its rows depends on the version of
    pandas.) *)
Theorem ungrouped_rows_are_done_list (input : string) (fs fs' : FileSystem)
    (h : string) (srrs done_srrs : list string) :
  read_table fs input = OK [(h, srrs)] ->
  NoDup srrs ->
  read_done_srrs fs = OK done_srrs ->
  NoDup done_srrs ->
  build_features input fs = (OK tt, fs') ->
  exists out,
    parquet_files fs' "features.parquet" = Some out /\
    index out = done_srrs.
Proof.
  intros Hm Hnd Hd Hdone Hb. apply build_features_written in Hb.
  destruct Hb as [out [Hft Hw]]. exists out. split; [exact Hw|].
  rewrite (feature_table_branch fs input _ done_srrs false
             (read_manifest_one fs input h srrs Hm) Hd eq_refl) in Hft.
  apply bind_inv in Hft. destruct Hft as [t [Et Hft]].
  apply bind_inv in Hft. destruct Hft as [s [Es Hft]].
  injection Hft as <-.
  change (index (pd.rename s FEATURE_RENAME)) with (index s).
  rewrite (loc_columns_index _ _ _ Es).
  apply joined_table_inv in Et. destruct Et as (wd & Hidx & _ & Hit & _).
  rewrite Hit, join_plan_labels by exact Hnd. exact Hidx.
Qed.

Lemma ungrouped_rows_are_done_list_witness :
  exists out,
    written "runs.tsv" scenario = Some out /\
    index out = ["R1"; "R2"; "R3"].
Proof.
  assert (fst (build_features "runs.tsv" scenario) = OK tt) as E
    by (vm_compute; reflexivity).
  apply (ungrouped_rows_are_done_list "runs.tsv" scenario
           (snd (build_features "runs.tsv" scenario)) "run"
           ["R1"; "R2"; "R3"]).
  - vm_compute. reflexivity.
  - apply unique_NoDup. vm_compute. reflexivity.
  - vm_compute. reflexivity.
  - apply unique_NoDup. vm_compute. reflexivity.
  - rewrite <- E. apply surjective_pairing.
Defined.

(** ** Renaming twice *)

Lemma renamed_idempotent (k : string) :
  pd.renamed FEATURE_RENAME (pd.renamed FEATURE_RENAME k)
  = pd.renamed FEATURE_RENAME k.
Proof.
  unfold pd.renamed at 2 3.
  destruct (pd.get FEATURE_RENAME k) as [v|] eqn:E.
  - unfold FEATURE_RENAME in E. cbn [pd.get] in E.
    repeat match type of E with
           | (if ?b then _ else _) = _ =>
               destruct b; [injection E as <-; vm_compute; reflexivity|]
           end.
    discriminate.
  - unfold pd.renamed. now rewrite E.
Qed.

(** X10. Renaming by the catalog is idempotent: no public name is itself a
    name the rename map changes, so a table that has been renamed is left
    as it is by a second renaming. *)
Theorem rename_idempotent (df : DataFrame) :
  pd.rename (pd.rename df FEATURE_RENAME) FEATURE_RENAME
  = pd.rename df FEATURE_RENAME.
Proof.
  unfold pd.rename. cbn [index columns]. f_equal.
  rewrite map_map. apply map_ext. intros c. cbn [fst snd].
  now rewrite renamed_idempotent.
Qed.

(** ** The files the program reads *)









(** ** The values of the feature table of a manifest of runs *)

Lemma join_plan_lpos (left right : DataFrame) :
  NoDup (index right) ->
  map pd.lpos (pd.join_plan left right) = seq 0 (nrows left).
Proof.
  intros Hnd. unfold pd.join_plan, nrows.
  assert (forall idx a,
            map pd.lpos
              (flat_map
                 (fun p =>
                    match pd.positions (snd p) (index right) with
                    | [] => [pd.mkJoined (snd p) (fst p) None]
                    | js => map (fun j => pd.mkJoined (snd p) (fst p) (Some j)) js
                    end)
                 (combine (seq a (List.length idx)) idx))
            = seq a (List.length idx)) as H.
  { induction idx as [|x t IH]; simpl; intros a; [reflexivity|].
    rewrite map_app, IH.
    pose proof (positions_NoDup x (index right) Hnd) as Hp.
    destruct (pd.positions x (index right)) as [|j [|j' js]]; simpl in *;
      [reflexivity | reflexivity | lia]. }
  apply H.
Qed.

Lemma find_filter {A : Type} (f : A -> bool) (l : list A) (c : A) (r : list A) :
  filter f l = c :: r -> find f l = Some c.
Proof.
  induction l as [|x t IH]; simpl; [discriminate|].
  destruct (f x); [now intros [= ->] | exact IH].
Qed.

Lemma joined_table_columns (fs : FileSystem) (srr_df wd t : DataFrame)
    (done_srrs : list string) (n : string) :
  workflow_data fs done_srrs feature_dict = OK wd ->
  joined_table fs srr_df done_srrs = OK t ->
  ~ In n cols -> ~ In n tertiles ->
  columns_named t n =
  filter (fun c => String.eqb (fst c) n)
    (map (fun c => (fst c, map (fun e => nth (pd.lpos e) (snd c) NaN)
                             (pd.join_plan wd srr_df)))
       (columns wd))
  ++ filter (fun c => String.eqb (fst c) n)
       (map (fun c => (fst c, map (fun e => pd.take (snd c) (pd.rpos e))
                                (pd.join_plan wd srr_df)))
          (columns srr_df)).
Proof.
  unfold joined_table. intros Ew H Hn Ht. rewrite Ew in H. cbn [bind] in H.
  apply bind_inv in H. destruct H as [j [Ej H]].
  apply join_inv in Ej. destruct Ej as [_ ->].
  apply aggregate_inv in H. destruct H as [_ ->].
  unfold columns_named, reduced. cbv zeta. cbn [columns index].
  rewrite filter_named_drop by assumption.
  unfold tertiles in Ht. simpl in Ht.
  rewrite !filter_setitem_other by intuition congruence.
  cbn [columns]. apply filter_app.
Qed.

Lemma left_rows_kept (left right : DataFrame) :
  NoDup (index right) -> wf left ->
  map (fun c => (fst c, map (fun e => nth (pd.lpos e) (snd c) NaN)
                          (pd.join_plan left right)))
    (columns left)
  = columns left.
Proof.
  intros Hnd Hwf. rewrite <- (map_id (columns left)) at 2.
  apply map_ext_in. intros [n v] Hc. cbn [fst snd]. f_equal.
  rewrite <- (map_map pd.lpos (fun i => nth i v NaN)).
  rewrite (join_plan_lpos left right Hnd), <- (Hwf _ Hc). cbn [snd].
  apply map_nth_seq.
Qed.

Lemma catalog_not_coverage (k : string) :
  In k (keys FEATURE_AGG) -> ~ In k cols /\ k <> "srr".
Proof.
  assert (forallb (fun k => negb (mem k cols) && negb (String.eqb k "srr"))
            (keys FEATURE_AGG) = true) as H by (vm_compute; reflexivity).
  rewrite forallb_forall in H. intros Hk. specialize (H k Hk).
  apply andb_true_iff in H. destruct H as [H1 H2].
  apply negb_true_iff in H1, H2. split.
  - now apply mem_false.
  - intros ->. now rewrite String.eqb_refl in H2.
Qed.

Lemma loc_columns_In (t s : DataFrame) (labels : list string) (k : string) :
  pd.loc_columns t labels = OK s -> In k labels ->
  In k (names t) /\
  forall c, In c (columns_named t k) -> In c (columns s).
Proof.
  intros Es Hk. unfold pd.loc_columns in Es.
  destruct (getitem_cases t labels) as [[Hp E] | [_ E]];
    rewrite E in Es; [|discriminate].
  injection Es as <-. split; [now apply Hp|]. intros c Hc.
  cbn [columns]. apply in_flat_map. exists k. split; [exact Hk | exact Hc].
Qed.

(** X13. For a manifest of one column whose runs are distinct and a
    completion list that lists no run twice, the program does not touch the
    metrics: every catalog column other than the three tertile sums is
    written with the values the loaded table has in the column of that
    name, under its public name.  (With a run listed twice the order of the
    rows of the join depends on the version of pandas.) *)
Theorem ungrouped_values_unchanged (input : string) (fs fs' : FileSystem)
    (h : string) (srrs done_srrs : list string) (wd : DataFrame) :
  read_table fs input = OK [(h, srrs)] ->
  NoDup srrs ->
  read_done_srrs fs = OK done_srrs ->
  NoDup done_srrs ->
  workflow_data fs done_srrs feature_dict = OK wd ->
  wf wd ->
  build_features input fs = (OK tt, fs') ->
  exists out,
    parquet_files fs' "features.parquet" = Some out /\
    forall k, In k (keys FEATURE_AGG) -> ~ In k tertiles ->
      exists v,
        lookup_col wd k = Some v /\
        lookup_col out (pd.renamed FEATURE_RENAME k) = Some v.
Proof.
  intros Hm Hnd Hd Hdone Hwd Hwf Hb. apply build_features_inv in Hb.
  destruct Hb as (out & Hft & Hn & Hw). exists out. split; [exact Hw|].
  rewrite (feature_table_branch fs input _ done_srrs false
             (read_manifest_one fs input h srrs Hm) Hd eq_refl) in Hft.
  apply bind_inv in Hft. destruct Hft as [t [Et Hft]].
  apply bind_inv in Hft. destruct Hft as [s [Es Hft]].
  injection Hft as <-.
  intros k Hk Hnt. destruct (catalog_not_coverage k Hk) as [Hkc Hks].
  pose proof (joined_table_columns fs _ wd t done_srrs k Hwd Et Hkc Hnt) as Ec.
  rewrite (left_rows_kept wd (mkDF srrs [("srr", map Str srrs)]) Hnd Hwf) in Ec.
  cbn [columns map filter fst] in Ec.
  assert (String.eqb "srr" k = false) as Ek
    by (apply String.eqb_neq; congruence).
  rewrite Ek, app_nil_r in Ec.
  destruct (loc_columns_In t s (keys FEATURE_AGG) k Es Hk) as [Hp Hs].
  destruct (filter (fun c => String.eqb (fst c) k) (columns wd))
    as [|c r] eqn:Ef.
  - exfalso. unfold names in Hp.
    apply in_map_iff in Hp. destruct Hp as [c [Hc Hin]].
    assert (In c (columns_named t k)) as Hin'
      by (apply filter_In; split; [exact Hin | now apply String.eqb_eq]).
    now rewrite Ec in Hin'.
  - exists (snd c). split.
    + unfold lookup_col. now rewrite (find_filter _ _ c r Ef).
    + assert (fst c = k) as Hc.
      { assert (In c (filter (fun c => String.eqb (fst c) k) (columns wd))) as Hi
          by (rewrite Ef; now left).
        apply filter_In in Hi. now apply String.eqb_eq. }
      apply lookup_col_NoDup; [exact Hn|].
      unfold pd.rename. cbn [columns].
      apply in_map_iff. exists c. split; [now rewrite Hc|].
      apply Hs. rewrite Ec. now left.
Qed.

Lemma ungrouped_values_unchanged_witness :
  exists wd out,
    workflow_data scenario ["R1"; "R2"; "R3"] feature_dict = OK wd /\
    written "runs.tsv" scenario = Some out /\
    exists v, lookup_col wd "Percent Reverse" = Some v /\
              lookup_col out "percent_reverse" = Some v.
Proof.
  destruct (workflow_data scenario ["R1"; "R2"; "R3"] feature_dict)
    as [wd|e] eqn:E; [|vm_compute in E; discriminate].
  assert (fst (build_features "runs.tsv" scenario) = OK tt) as Eb
    by (vm_compute; reflexivity).
  assert (wfb wd = true) as Hwf.
  { assert (match workflow_data scenario ["R1"; "R2"; "R3"] feature_dict with
            | OK d => wfb d
            | Err _ => false
            end = true) as H by (vm_compute; reflexivity).
    now rewrite E in H. }
  destruct (ungrouped_values_unchanged "runs.tsv" scenario
              (snd (build_features "runs.tsv" scenario)) "run"
              ["R1"; "R2"; "R3"] ["R1"; "R2"; "R3"] wd)
    as (out & Hw & Hv).
  - vm_compute. reflexivity.
  - apply unique_NoDup. vm_compute. reflexivity.
  - vm_compute. reflexivity.
  - apply unique_NoDup. vm_compute. reflexivity.
  - exact E.
  - now apply wfb_spec.
  - rewrite <- Eb. apply surjective_pairing.
  - exists wd, out. split; [reflexivity|]. split; [exact Hw|].
    apply (Hv "Percent Reverse").
    + apply mem_In. vm_compute. reflexivity.
    + apply mem_false. vm_compute. reflexivity.
Defined.

(** * Theorems: the values of the grouped table *)

(** ** The joined table is rectangular *)



(** ** The rows of a sample *)


(** ** The sum and the mean of a group *)







(** ** The columns of the grouped table *)






(** * Theorems: what the loader keeps and what it pads *)

(** The table the loader returns from source tables that are well formed
    and have no repeated run: the columns of the sources, each on the row
    labels asked for. *)
Lemma workflow_data_aligned (fs : FileSystem) (srrs : list string)
    (folders : list (string * string)) (dfs : list DataFrame)
    (out : DataFrame) :
  mapM (read_parquet fs) (map snd folders) = OK dfs ->
  (forall df, In df dfs -> wf df /\ NoDup (index df)) ->
  workflow_data fs srrs folders = OK out ->
  out = mkDF srrs (flat_map (fun df => aligned df srrs) dfs).
Proof.
  intros Hr Hsrc H. apply workflow_data_inv in H.
  destruct H as (dfs' & d & Hr' & Hc & Hx).
  rewrite Hr in Hr'. inversion Hr'. subst dfs'. clear Hr'.
  apply concat_inv in Hc. apply reindex_inv in Hx.
  destruct Hc as [[Hidx Hcols] | [Hsub [Hnd Hcols]]].
  - destruct Hx as [[Hd ->] | ->].
    + destruct d as [di dc]. cbn [index columns] in *. subst di dc.
      f_equal. apply flat_map_ext_in. intros df Hdf.
      destruct (Hsrc df Hdf) as [Hwf Hn].
      rewrite <- (Hidx df Hdf). symmetry. now apply aligned_self.
    + f_equal. rewrite Hcols, map_flat_map.
      apply flat_map_ext_in. intros df Hdf. unfold aligned.
      now rewrite (Hidx df Hdf).
  - destruct Hx as [[Hd ->] | ->].
    + destruct d as [di dc]. cbn [index columns] in *. now subst di dc.
    + f_equal. rewrite Hcols, map_flat_map.
      apply flat_map_ext_in. intros df Hdf. unfold aligned.
      rewrite map_map. apply map_ext. intros c. cbn [fst snd]. f_equal.
      apply map_ext. intros r. apply take_twice. intros x Hxin.
      now apply (Hsub df).
Qed.

Lemma position_NoDup (r : string) (idx : list string) (j : nat) :
  NoDup idx -> nth_error idx j = Some r -> pd.position r idx = Some j.
Proof.
  revert j. induction idx as [|x t IH]; intros j Hnd Hj.
  - destruct j; discriminate.
  - inversion Hnd as [|? ? Hx Ht]. subst. destruct j as [|j]; simpl in *.
    + inversion Hj. subst. now rewrite String.eqb_refl.
    + assert (String.eqb x r = false) as ->.
      { apply String.eqb_neq. intros ->. apply Hx.
        now apply nth_error_In in Hj. }
      now rewrite (IH j Ht Hj).
Qed.

Lemma Forall2_map_same {A B C : Type} (R : B -> C -> Prop) (f : A -> B)
    (g : A -> C) (l : list A) :
  (forall a, In a l -> R (f a) (g a)) -> Forall2 R (map f l) (map g l).
Proof.
  induction l as [|a t IH]; simpl; intros H; constructor.
  - apply H. now left.
  - apply IH. intros a' Ha'. apply H. now right.
Qed.

Lemma Forall2_flat_map_same {A B C : Type} (R : B -> C -> Prop)
    (f : A -> list B) (g : A -> list C) (l : list A) :
  (forall a, In a l -> Forall2 R (f a) (g a)) ->
  Forall2 R (flat_map f l) (flat_map g l).
Proof.
  induction l as [|a t IH]; simpl; intros H; [constructor|].
  apply Forall2_app.
  - apply H. now left.
  - apply IH. intros a' Ha'. apply H. now right.
Qed.

(** A source column brought onto row labels keeps the cell of every label
    the source has, and has a missing value at every other label. *)
Lemma aligned_padded (df : DataFrame) (srrs : list string) :
  wf df -> NoDup (index df) ->
  Forall2 (padded_onto srrs) (aligned df srrs)
    (map (fun c => (index df, c)) (columns df)).
Proof.
  intros Hwf Hnd. unfold aligned. apply Forall2_map_same. intros c Hc.
  unfold padded_onto. cbn [fst snd]. split; [reflexivity|].
  split; [apply length_map|]. intros i r Hi.
  rewrite (nth_error_nth _ _ _
             (map_nth_error (fun r' => pd.take (snd c) (pd.position r' (index df)))
                _ _ Hi)).
  split.
  - intros j Hj. now rewrite (position_NoDup r (index df) j Hnd Hj).
  - intros Hno. now rewrite position_None.
Qed.

(** C7. The table the loader returns has the completion list as its row
    labels, in order and with repetitions: a run that is not in the
    completion list is no row label, and a run of the list is a row label as
    often as it is listed (once when listed once).  Its columns are the
    columns of the source tables, all of them, under their names and in
    their order.  A listed run that is a row label of none of the source
    tables has a missing value in every column; and when the source tables
    are well formed and none repeats a run, every column holds, at a listed
    run, the cell its source has for that run, and a missing value when its
    source has no row for the run. *)
Theorem workflow_data_filter_pad (fs : FileSystem) (srrs : list string)
    (workflow_folders : list (string * string)) (out : DataFrame) :
  workflow_data fs srrs workflow_folders = OK out ->
  index out = srrs /\
  (forall r, ~ In r srrs -> ~ In r (index out)) /\
  (forall r, count_occ string_dec (index out) r = count_occ string_dec srrs r) /\
  (forall r, count_occ string_dec srrs r = 1 ->
             count_occ string_dec (index out) r = 1) /\
  (forall r,
     (forall name path df, In (name, path) workflow_folders ->
        read_parquet fs path = OK df -> ~ In r (index df)) ->
     forall i, nth_error srrs i = Some r ->
     forall c, In c (columns out) -> nth i (snd c) NaN = NaN) /\
  exists dfs,
    mapM (read_parquet fs) (map snd workflow_folders) = OK dfs /\
    List.length dfs = List.length workflow_folders /\
    names out = flat_map names dfs /\
    ((forall df, In df dfs -> wf df /\ NoDup (index df)) ->
     Forall2 (padded_onto srrs) (columns out) (source_columns dfs)).
Proof.
  intros Hw. pose proof Hw as H. apply workflow_data_inv in H.
  destruct H as (dfs & d & Er & Ec & H).
  assert (forall r,
            (forall name path df, In (name, path) workflow_folders ->
               read_parquet fs path = OK df -> ~ In r (index df)) ->
            ~ In r (index d)) as Habsent.
  { intros r Hr Hin. destruct (concat_index dfs d r Ec Hin) as [df [Hdf Hrin]].
    destruct (mapM_In _ _ _ Er df Hdf) as [path [Hp Hread]].
    apply in_map_iff in Hp. destruct Hp as [[name path'] [Hpath Hp]].
    simpl in Hpath. subst path'. exact (Hr name path df Hp Hread Hrin). }
  assert (index out = srrs) as Hidx.
  { apply reindex_inv in H. destruct H as [[Hd ->] | ->]; [exact Hd | reflexivity]. }
  split; [exact Hidx|]. rewrite Hidx.
  split; [tauto|]. split; [reflexivity|]. split; [tauto|]. split.
  - intros r Hr i Hi c Hc. specialize (Habsent r Hr).
    apply reindex_inv in H. destruct H as [[Hd ->] | ->].
    + exfalso. apply Habsent. rewrite Hd. now apply nth_error_In in Hi.
    + cbn [columns] in Hc. apply in_map_iff in Hc.
      destruct Hc as [c0 [<- Hc0]]. cbn [snd].
      rewrite (nth_error_nth _ _ _
                 (map_nth_error
                    (fun r' => pd.take (snd c0) (pd.position r' (index d)))
                    _ _ Hi)).
      now rewrite position_None.
  - exists dfs. split; [exact Er|]. split.
    { apply mapM_length in Er. now rewrite Er, length_map. }
    split.
    + assert (names d = flat_map names dfs) as Hd.
      { unfold names. apply concat_inv in Ec.
        destruct Ec as [[_ ->] | [_ [_ ->]]]; rewrite map_fst_flat_map;
          [reflexivity|].
        apply flat_map_ext_in. intros df _. apply names_aligned. }
      apply reindex_inv in H. destruct H as [[_ ->] | ->]; [exact Hd|].
      rewrite <- Hd. unfold names. cbn [columns]. now rewrite map_map.
    + intros Hsrc.
      rewrite (workflow_data_aligned fs srrs workflow_folders dfs out Er Hsrc Hw).
      cbn [columns]. unfold source_columns.
      apply Forall2_flat_map_same. intros df Hdf.
      destruct (Hsrc df Hdf) as [Hwf Hnd]. now apply aligned_padded.
Qed.

(** The loader on the files of [scenario]. *)
Lemma workflow_data_filter_pad_witness :
  exists out dfs,
    workflow_data scenario ["R1"; "R2"; "R3"] feature_dict = OK out /\
    index out = ["R1"; "R2"; "R3"] /\
    ~ In "R9" (index out) /\
    count_occ string_dec (index out) "R3" = 1 /\
    (forall c, In c (columns out) -> nth 2 (snd c) NaN = NaN) /\
    mapM (read_parquet scenario) (map snd feature_dict) = OK dfs /\
    names out = flat_map names dfs /\
    Forall2 (padded_onto ["R1"; "R2"; "R3"]) (columns out) (source_columns dfs) /\
    lookup_col out "num_reads" = Some [Num 10%Q; Num 20%Q; NaN].
Proof.
  destruct (workflow_data scenario ["R1"; "R2"; "R3"] feature_dict)
    as [out|e] eqn:E; [|vm_compute in E; discriminate].
  destruct (workflow_data_filter_pad _ _ _ _ E)
    as (Hi & Hf & _ & Ho & Hp & dfs & Hr & _ & Hn & Hv).
  exists out, dfs. split; [reflexivity|]. split; [exact Hi|].
  split; [|split; [|split; [|split; [exact Hr|split; [exact Hn|split]]]]].
  - apply Hf. apply mem_false. vm_compute. reflexivity.
  - apply Ho. vm_compute. reflexivity.
  - intros c Hc. apply (Hp "R3") with (i := 2); [|reflexivity|exact Hc].
    intros name path df Hin Hread. apply mem_false.
    vm_compute in Hin.
    repeat (destruct Hin as [Hin | Hin];
            [inversion Hin; subst; vm_compute in Hread; inversion Hread;
             vm_compute; reflexivity|]).
    contradiction.
  - apply Hv.
    assert (forallb (fun df => wfb df && pd.unique (index df)) dfs = true) as H.
    { vm_compute in Hr. inversion Hr. vm_compute. reflexivity. }
    rewrite forallb_forall in H. intros df Hdf.
    specialize (H df Hdf). apply andb_true_iff in H. destruct H as [H1 H2].
    split; [now apply wfb_spec | now apply unique_NoDup].
  - vm_compute in E. inversion E. vm_compute. reflexivity.
Defined.
